(** * Agent coordinator: selection, execution policy and combination

    A shallow embedding of [src/agents/coordinator.py] (class
    [AgentCoordinator]) and of the handler contract it consumes
    ([src/agents/base.py] and the specialised agents), together with the
    properties of the selection pipeline.

    Modelling conventions.
    - Python floats (suitability scores, confidences, clock readings) are
      rationals [Q]; only comparisons and one subtraction are performed on
      them, rounding is not modelled.
    - Result mappings ([Dict[str, Any]]) are [gmap string Value].
    - Handlers are black boxes that may read and change an external
      environment [Env] (their own state, remote services, the wall clock)
      and may raise.  The coordinator reads the clock through [wall].
    - [asyncio.gather] is sequentialised: the awaitables run to completion
      one after the other in list order; all of them run even when one
      raises, and the first exception (in that order) is the one delivered.
    - Every call the coordinator makes on a handler is recorded in a trace,
      so that statements such as "only that handler is invoked" can be read
      off the final world.
    - The task mapping is a record with the fields of the API schema;
      [str.lower] folds the ASCII letters only.
    - The coordinator calls [log_activity] on its handlers; no handler class
      of the repository defines it, so it is taken as one more operation
      of the handler contract, which may raise like the others. *)

From Stdlib Require Import QArith Lqa Ascii.
From stdpp Require Import base option list strings gmap fin_maps.
From Stdlib Require Import Permutation Sorted.

Local Open Scope string_scope.
Local Open Scope list_scope.

(** ** Python values and exceptions *)

Inductive Value : Type :=
| VNone
| VNum (q : Q)
| VStr (s : string).

Abbreviation Result := (gmap string Value).

Inductive Exn : Type :=
| ValueError (msg : string)
| AttributeError
| IndexError
| TypeError
| HandlerError (msg : string).

Inductive Outcome (A : Type) : Type :=
| Ok (a : A)
| Raise (e : Exn).
Arguments Ok {A} a.
Arguments Raise {A} e.

(** The task mapping, with the fields the API schema [AgentTask] gives it.
    [preferred_agent = None] stands for an absent key or a [None] value. *)
Record Task : Type := {
  query : option string;
  task_type : option string;
  context : option string;
  use_web_search : option bool;
  require_step_by_step : option bool;
  preferred_agent : option string
}.

(** [task.get('query', '')[:n]] *)
Definition query_prefix (n : nat) (task : Task) : string :=
  String.substring 0 n (default "" (query task)).

(** ** Strings: [str.lower] restricted to ASCII letters *)

Definition lower_ascii (ch : ascii) : ascii :=
  let n := nat_of_ascii ch in
  if (65 <=? n)%nat && (n <=? 90)%nat then ascii_of_nat (n + 32) else ch.

Fixpoint lower (s : string) : string :=
  match s with
  | EmptyString => EmptyString
  | String ch r => String (lower_ascii ch) (lower r)
  end.

(** Truthiness of a Python string. *)
Definition truthy_str (s : string) : bool :=
  match s with EmptyString => false | _ => true end.

(** ** Float comparisons *)

Definition Qlt_bool (x y : Q) : bool := negb (Qle_bool y x).

(** ** [list.sort(key=..., reverse=True)]

    Python's sort is stable, also with [reverse=True]: elements whose keys
    compare equal keep their original relative order. *)

Fixpoint insert_desc {A} (key : A -> Q) (x : A) (l : list A) : list A :=
  match l with
  | [] => [x]
  | y :: r => if Qlt_bool (key x) (key y) then y :: insert_desc key x r else x :: l
  end.

Definition sort_desc {A} (key : A -> Q) (l : list A) : list A :=
  foldr (insert_desc key) [] l.

(** [ge_key key a b]: [a] may stand before [b] in a list sorted by
    descending [key]. *)
Definition ge_key {A} (key : A -> Q) (a b : A) : Prop := (key b <= key a)%Q.

Section Coordinator.

Context {Env : Type} (wall : Env -> Q).

(** ** The handler contract

    [aid] is the identity of the Python object: [BaseAgent] defines no
    [__eq__], so [agent == self.default_agent] compares identities. *)
Record Agent : Type := {
  aid : nat;
  name : string;
  description : string;
  evaluate_suitability : Task -> Env -> Outcome Q * Env;
  log_activity : string -> Env -> Outcome unit * Env;
  process : Task -> Env -> Outcome Result * Env
}.

Inductive Event : Type :=
| EvSuitability (a : nat)
| EvLog (a : nat) (msg : string)
| EvProcess (a : nat).

Record World : Type := { env : Env; trace : list Event }.

(** ** A state-and-exception monad for coroutines *)

Definition M (A : Type) : Type := World -> Outcome A * World.

Definition ret {A} (a : A) : M A := fun w => (Ok a, w).
Definition raise {A} (e : Exn) : M A := fun w => (Raise e, w).
Definition bind {A B} (m : M A) (k : A -> M B) : M B :=
  fun w => match m w with
           | (Ok a, w') => k a w'
           | (Raise e, w') => (Raise e, w')
           end.
Definition try_except {A} (m : M A) (handler : Exn -> M A) : M A :=
  fun w => match m w with
           | (Ok a, w') => (Ok a, w')
           | (Raise e, w') => handler e w'
           end.
Definition lift {A} (o : Outcome A) : M A := fun w => (o, w).

Notation "'let*' x ':=' m 'in' k" := (bind m (fun x => k))
  (at level 10, x name, m at level 100, k at level 200).

(** [time.time()] *)
Definition time : M Q := fun w => (Ok (wall (env w)), w).

(** A call on a handler: record it, then let the handler act on the
    environment. *)
Definition call {A} (ev : Event) (f : Env -> Outcome A * Env) : M A :=
  fun w => let (o, e') := f (env w) in
           (o, {| env := e'; trace := trace w ++ [ev] |}).

Definition call_eval (task : Task) (a : Agent) : M Q :=
  call (EvSuitability (aid a)) (evaluate_suitability a task).
Definition call_log (a : Agent) (msg : string) : M unit :=
  call (EvLog (aid a) msg) (log_activity a msg).
Definition call_process (a : Agent) (task : Task) : M Result :=
  call (EvProcess (aid a)) (process a task).

(** [await asyncio.gather] over the awaitables [ms] *)
Fixpoint gather {A} (ms : list (M A)) : M (list A) :=
  match ms with
  | [] => ret []
  | m :: rest =>
      fun w =>
        let (o, w1) := m w in
        let (os, w2) := gather rest w1 in
        (match o, os with
         | Ok a, Ok l => Ok (a :: l)
         | Ok _, Raise e => Raise e
         | Raise e, _ => Raise e
         end, w2)
  end.

(** ** The coordinator *)

Record AgentCoordinator : Type := {
  agents : list Agent;
  default_agent : option Agent;
  enable_parallel : bool;
  confidence_threshold : Q
}.

(** [AgentCoordinator.__init__] *)
Definition init (ags : list Agent) (dflt : option Agent)
    (parallel : bool) (threshold : Q) : Outcome AgentCoordinator :=
  let self := {| agents := ags;
                 default_agent := match dflt with
                                  | Some d => Some d
                                  | None => head ags
                                  end;
                 enable_parallel := parallel;
                 confidence_threshold := threshold |} in
  match ags with
  | [] => Raise (ValueError "At least one agent must be provided")
  | _ => Ok self
  end.

(** [agent == other] on possibly-[None] references. *)
Definition same_agent (a b : option Agent) : bool :=
  match a, b with
  | Some x, Some y => (aid x =? aid y)%nat
  | None, None => true
  | _, _ => false
  end.

(** Attribute access on a possibly-[None] reference. *)
Definition deref (a : option Agent) : M Agent :=
  match a with
  | Some x => ret x
  | None => raise AttributeError
  end.

(** [AgentCoordinator._get_agent_by_name] *)
Fixpoint find_by_name (ags : list Agent) (nm : string) : option Agent :=
  match ags with
  | [] => None
  | agent :: rest =>
      if String.eqb (lower (name agent)) (lower nm) then Some agent
      else find_by_name rest nm
  end.

Definition _get_agent_by_name (c : AgentCoordinator) (nm : string) : option Agent :=
  find_by_name (agents c) nm.

(** [AgentCoordinator._prepare_result] *)
Definition _prepare_result (result : Result) (agent : Agent) (execution_time : Q) : Result :=
  <[ "execution_time" := VNum execution_time ]>
    (<[ "agent_description" := VStr (description agent) ]>
       (<[ "agent_name" := VStr (name agent) ]> result)).

Definition primary_msg (task : Task) : string :=
  "Processing task: " +:+ query_prefix 50 task +:+ "...".
Definition fallback_msg (task : Task) : string :=
  "Processing task as fallback: " +:+ query_prefix 50 task +:+ "...".

(** [AgentCoordinator._execute_agent] *)
Definition _execute_agent (c : AgentCoordinator) (agent : option Agent) (task : Task) : M Result :=
  try_except
    (let* a := deref agent in
     let* _ := call_log a (primary_msg task) in
     call_process a task)
    (fun e =>
       let* _ := deref agent in              (* the error log reads agent.name *)
       if same_agent agent (default_agent c) then raise e
       else
         let* d := deref (default_agent c) in
         let* _ := call_log d (fallback_msg task) in
         call_process d task).

(** [AgentCoordinator._execute_parallel] *)
Definition _execute_parallel (c : AgentCoordinator) (ags : list (option Agent))
    (task : Task) : M (list Result) :=
  gather (map (fun agent => _execute_agent c agent task) ags).

(** The loop of [_evaluate_agents]:
    [for i, score in enumerate(results): if score > 0: scores.append(...)] *)
Fixpoint collect_scores (ags : list Agent) (i : nat) (results : list Q)
    : Outcome (list (string * Q)) :=
  match results with
  | [] => Ok []
  | score :: rest =>
      if Qlt_bool 0 score then
        match ags !! i with
        | None => Raise IndexError
        | Some a =>
            match collect_scores ags (S i) rest with
            | Ok scores => Ok ((name a, score) :: scores)
            | Raise e => Raise e
            end
        end
      else collect_scores ags (S i) rest
  end.

(** [AgentCoordinator._evaluate_agents] *)
Definition _evaluate_agents (c : AgentCoordinator) (task : Task) : M (list (string * Q)) :=
  let evaluation_tasks := map (call_eval task) (agents c) in
  let* scores :=
    match evaluation_tasks with
    | [] => ret []
    | _ => let* results := gather evaluation_tasks in
           lift (collect_scores (agents c) 0 results)
    end in
  ret (sort_desc snd scores).

(** [result.get("confidence", 0) > best_confidence] *)
Definition confidence_gt (result : Result) (best_confidence : Q) : Outcome (bool * Q) :=
  match default (VNum 0) (result !! "confidence") with
  | VNum q => Ok (Qlt_bool best_confidence q, q)
  | _ => Raise TypeError
  end.

(** The loop of [_combine_results]; [best] is the pair
    [(best_result, best_agent)], [None] while both are [None]. *)
Fixpoint combine_loop (ags : list (option Agent)) (i : nat) (results : list Result)
    (best_confidence : Q) (best : option (Result * option Agent))
    : Outcome (option (Result * option Agent)) :=
  match results with
  | [] => Ok best
  | result :: rest =>
      match confidence_gt result best_confidence with
      | Raise e => Raise e
      | Ok (false, _) => combine_loop ags (S i) rest best_confidence best
      | Ok (true, confidence) =>
          match ags !! i with
          | None => Raise IndexError
          | Some agent => combine_loop ags (S i) rest confidence (Some (result, agent))
          end
      end
  end.

(** Truthiness of a dict. *)
Definition truthy_dict (r : Result) : bool :=
  match map_to_list r with [] => false | _ => true end.

(** [_prepare_result] applied to a possibly-[None] agent reference. *)
Definition prepare_ref (result : Result) (agent : option Agent) (execution_time : Q)
    : Outcome Result :=
  match agent with
  | Some a => Ok (_prepare_result result a execution_time)
  | None => Raise AttributeError
  end.

(** [AgentCoordinator._combine_results] *)
Definition _combine_results (results : list Result) (ags : list (option Agent))
    (execution_time : Q) : Outcome Result :=
  match combine_loop ags 0 results (-1) None with
  | Raise e => Raise e
  | Ok best =>
      match best with
      | Some (best_result, best_agent) =>
          if truthy_dict best_result
          then prepare_ref best_result best_agent execution_time
          else match results !! 0%nat, ags !! 0%nat with
               | Some r0, Some a0 => prepare_ref r0 a0 execution_time
               | _, _ => Raise IndexError
               end
      | None =>
          match results !! 0%nat, ags !! 0%nat with
          | Some r0, Some a0 => prepare_ref r0 a0 execution_time
          | _, _ => Raise IndexError
          end
      end
  end.

(** The explicit override test of [process_task] (lines 64-66): the agent
    named by a truthy [preferred_agent], if one is registered. *)
Definition requested_agent (c : AgentCoordinator) (task : Task) : option Agent :=
  match preferred_agent task with
  | Some nm => if truthy_str nm then _get_agent_by_name c nm else None
  | None => None
  end.

(** [process_task] from "Otherwise, evaluate all agents for suitability"
    on (lines 71-109). *)
Definition process_task_auto (c : AgentCoordinator) (task : Task) (start_time : Q) : M Result :=
  let* agent_scores := _evaluate_agents c task in
  match agent_scores with
  | [] =>
      match default_agent c with
      | None => raise (ValueError "No default agent available")
      | Some d =>
          let* result := _execute_agent c (Some d) task in
          let* now := time in
          ret (_prepare_result result d (now - start_time))
      end
  | (best_agent_name, best_score) :: _ =>
      let best_agent := _get_agent_by_name c best_agent_name in
      let single : M Result :=
        let* b := deref best_agent in        (* the info log reads best_agent.name *)
        let* result := _execute_agent c (Some b) task in
        let* now := time in
        ret (_prepare_result result b (now - start_time)) in
      if enable_parallel c && (1 <? length agent_scores)%nat then
        let parallel_agents :=
          map (fun p => _get_agent_by_name c (fst p))
              (filter (fun p => Qle_bool (confidence_threshold c) (snd p) = true) agent_scores) in
        if (1 <? length parallel_agents)%nat then
          let* results := _execute_parallel c parallel_agents task in
          let* now := time in
          lift (_combine_results results parallel_agents (now - start_time))
        else single
      else single
  end.

(** [AgentCoordinator.process_task] *)
Definition process_task (c : AgentCoordinator) (task : Task) : M Result :=
  let* start_time := time in
  match requested_agent c task with
  | Some agent =>
      let* result := _execute_agent c (Some agent) task in
      let* now := time in
      ret (_prepare_result result agent (now - start_time))
  | None => process_task_auto c task start_time
  end.

(** ** Vocabulary for the statements *)

(** The (name, score) pair the coordinator keeps for a scored agent. *)
Definition label (p : Agent * Q) : string * Q := (name (fst p), snd p).

(** The registered agents paired with the scores they returned, restricted
    to positive scores and ranked. *)
Definition ranked_agents (ags : list Agent) (scores : list Q) : list (Agent * Q) :=
  sort_desc snd (filter (fun p => Qlt_bool 0 (snd p) = true) (zip ags scores)).

(** The agents handed to [_execute_agent], read off a trace: each
    execution starts by logging [primary_msg] on its agent, and the
    fallback logs a different message. *)
Definition executed (task : Task) (evs : list Event) : list nat :=
  omap (fun ev => match ev with
                  | EvLog a msg => if String.eqb msg (primary_msg task) then Some a else None
                  | _ => None
                  end) evs.

(** The events recorded after the trace had length [n]. *)
Definition events_since (n : nat) (w : World) : list Event := drop n (trace w).

(** The [try] block of [_execute_agent] on a registered agent, and the
    retry its [except] clause performs on the default agent. *)
Definition primary_attempt (a : Agent) (task : Task) : M Result :=
  let* _ := call_log a (primary_msg task) in call_process a task.
Definition fallback_attempt (d : Agent) (task : Task) : M Result :=
  let* _ := call_log d (fallback_msg task) in call_process d task.

(** The confidence the combination step reads in a result:
    [result.get("confidence", 0)], for a result that carries a number or
    nothing under that key. *)
Definition confidence_of (r : Result) : Q :=
  match r !! "confidence" with
  | Some (VNum q) => q
  | _ => 0
  end.

(** The data model's results: the confidence, when present, is a
    non-negative number. *)
Definition well_formed_confidence (r : Result) : Prop :=
  match r !! "confidence" with
  | None => True
  | Some (VNum q) => (0 <= q)%Q
  | Some _ => False
  end.

(** The state of the loop of [_combine_results] after the results [seen]:
    nothing is selected only before the first result, and otherwise the
    selection is the first result of highest confidence so far. *)
Definition combine_inv (ags : list (option Agent)) (seen : list Result)
    (best_confidence : Q) (best : option (Result * option Agent)) : Prop :=
  match best with
  | None => seen = [] /\ (best_confidence < 0)%Q
  | Some (r, a) =>
      exists i : nat,
        seen !! i = Some r /\ ags !! i = Some a /\ confidence_of r = best_confidence
        /\ (forall j r', seen !! j = Some r' -> (confidence_of r' <= best_confidence)%Q)
        /\ (forall j r', (j < i)%nat -> seen !! j = Some r' ->
                         (confidence_of r' < best_confidence)%Q)
  end.

(** The task with its [preferred_agent] field omitted. *)
Definition without_preference (task : Task) : Task :=
  {| query := query task; task_type := task_type task; context := context task;
     use_web_search := use_web_search task;
     require_step_by_step := require_step_by_step task;
     preferred_agent := None |}.

(** A handler whose evaluation and processing do not look at the
    [preferred_agent] field of this task. *)
Definition ignores_preference (a : Agent) (task : Task) : Prop :=
  (forall e, evaluate_suitability a task e
             = evaluate_suitability a (without_preference task) e)
  /\ (forall e, process a task e = process a (without_preference task) e).

(** The evaluation pass as the specification asks for it: a raising
    evaluator counts as score 0.0 and the others are unaffected. *)
Definition call_eval_hardened (task : Task) (a : Agent) : M Q :=
  try_except (call_eval task a) (fun _ => ret 0%Q).

Definition evaluate_agents_hardened (c : AgentCoordinator) (task : Task)
    : M (list (string * Q)) :=
  let evaluation_tasks := map (call_eval_hardened task) (agents c) in
  let* scores :=
    match evaluation_tasks with
    | [] => ret []
    | _ => let* results := gather evaluation_tasks in
           lift (collect_scores (agents c) 0 results)
    end in
  ret (sort_desc snd scores).

(** ** The execution policy, stated on the handlers' own operations *)

(** The attempt on [a] started in environment [e] fails and leaves [e']:
    its log raises, or its log returns and its [process] raises. *)
Definition attempt_fails (a : Agent) (task : Task) (e e' : Env) : Prop :=
  (exists ex, log_activity a (primary_msg task) e = (Raise ex, e'))
  \/ (exists e1 ex, log_activity a (primary_msg task) e = (Ok tt, e1)
                    /\ process a task e1 = (Raise ex, e')).

(** [served_by c task a e p r e']: handing [a] to the execution policy in
    environment [e] ends in environment [e'] with the result [r], which
    the [process] of [p] returned: [p] is [a] itself, or the default
    handler after [a] failed. *)
Definition served_by (c : AgentCoordinator) (task : Task)
    (a : Agent) (e : Env) (p : Agent) (r : Result) (e' : Env) : Prop :=
  (p = a /\ exists e1, log_activity a (primary_msg task) e = (Ok tt, e1)
                       /\ process a task e1 = (Ok r, e'))
  \/ (default_agent c = Some p /\ aid a <> aid p
      /\ exists e1 e2, attempt_fails a task e e1
                       /\ log_activity p (fallback_msg task) e1 = (Ok tt, e2)
                       /\ process p task e2 = (Ok r, e')).

(** A fan-out in which every execution ends with a result: the handlers
    are served one after the other, each from the environment its
    predecessor left; the list pairs each result with its producer. *)
Inductive fanned_out (c : AgentCoordinator) (task : Task)
    : list Agent -> Env -> list (Agent * Result) -> Env -> Prop :=
| fanned_nil (e : Env) : fanned_out c task [] e [] e
| fanned_cons (a : Agent) (ags : list Agent) (e e1 e' : Env)
      (p : Agent) (r : Result) (prs : list (Agent * Result)) :
    served_by c task a e p r e1 ->
    fanned_out c task ags e1 prs e' ->
    fanned_out c task (a :: ags) e ((p, r) :: prs) e'.

(** Every handler of the list answers its own call: log, then [process],
    each from the environment its predecessor left. *)
Inductive all_serve (task : Task) : list Agent -> Env -> list Result -> Env -> Prop :=
| serve_nil (e : Env) : all_serve task [] e [] e
| serve_cons (a : Agent) (ags : list Agent) (e e1 e2 e' : Env)
      (r : Result) (rs : list Result) :
    log_activity a (primary_msg task) e = (Ok tt, e1) ->
    process a task e1 = (Ok r, e2) ->
    all_serve task ags e2 rs e' ->
    all_serve task (a :: ags) e (r :: rs) e'.

(** The calls recorded when every handler of the list answers its own
    call. *)
Definition served_events (task : Task) (ags : list Agent) : list Event :=
  flat_map (fun a => [EvLog (aid a) (primary_msg task); EvProcess (aid a)]) ags.

End Coordinator.

(** * Scenarios

    Scripted handlers over an environment that is just the wall clock: an
    evaluation takes one second, a [process] call two, logging none. *)

Definition clock (e : Q) : Q := e.

Definition scripted (i : nat) (nm : string) (score : Outcome Q)
    (answer : Task -> Outcome Result) : @Agent Q :=
  {| aid := i; name := nm; description := nm +:+ " handler";
     evaluate_suitability := fun _ e => (score, (e + 1)%Q);
     log_activity := fun _ e => (Ok tt, e);
     process := fun task e => (answer task, (e + 2)%Q) |}.

Definition reply (text : string) (conf : Q) : Result :=
  <[ "answer" := VStr text ]> (<[ "confidence" := VNum conf ]> empty).

Definition ask (q : string) (preferred : option string) : Task :=
  {| query := Some q; task_type := None; context := None;
     use_web_search := Some false; require_step_by_step := Some true;
     preferred_agent := preferred |}.

Definition dawn : @World Q := {| env := 0%Q; trace := [] |}.

(** Three handlers with scores 0.9, 0.9 and 0.5, and a fourth that
    declines. *)
Definition ex_A : @Agent Q := scripted 1 "A" (Ok (9 # 10)) (fun _ => Ok (reply "from A" (6 # 10))).
Definition ex_B : @Agent Q := scripted 2 "B" (Ok (9 # 10)) (fun _ => Ok (reply "from B" (8 # 10))).
Definition ex_C : @Agent Q := scripted 3 "C" (Ok (1 # 2)) (fun _ => Ok (reply "from C" (7 # 10))).
Definition ex_Z : @Agent Q := scripted 4 "Z" (Ok 0%Q) (fun _ => Ok (reply "from Z" (1 # 10))).

Definition ex_tie : @AgentCoordinator Q :=
  {| agents := [ex_A; ex_B; ex_C; ex_Z]; default_agent := Some ex_A;
     enable_parallel := false; confidence_threshold := 1 # 2 |}.

(** Scores 0.9, 0.7 and 0.3 with parallel execution and threshold 0.5. *)
Definition ex_B7 : @Agent Q := scripted 2 "B" (Ok (7 # 10)) (fun _ => Ok (reply "from B" (8 # 10))).
Definition ex_C3 : @Agent Q := scripted 3 "C" (Ok (3 # 10)) (fun _ => Ok (reply "from C" (7 # 10))).

Definition ex_fan : @AgentCoordinator Q :=
  {| agents := [ex_A; ex_B7; ex_C3]; default_agent := Some ex_A;
     enable_parallel := true; confidence_threshold := 1 # 2 |}.

(** A top-ranked handler whose [process] raises, with another handler as
    the default. *)
Definition ex_alpha : @Agent Q :=
  scripted 1 "Alpha" (Ok (9 # 10)) (fun _ => Raise (HandlerError "backend unavailable")).
Definition ex_delta : @Agent Q :=
  scripted 2 "Delta" (Ok (1 # 10)) (fun _ => Ok (reply "from Delta" (1 # 2))).

Definition ex_fallback : @AgentCoordinator Q :=
  {| agents := [ex_alpha; ex_delta]; default_agent := Some ex_delta;
     enable_parallel := false; confidence_threshold := 1 # 2 |}.

(** Handlers that all decline. *)
Definition ex_shy : @Agent Q := scripted 1 "Shy" (Ok 0%Q) (fun _ => Ok (reply "from Shy" (1 # 2))).
Definition ex_coy : @Agent Q := scripted 2 "Coy" (Ok (- (1 # 2))%Q) (fun _ => Ok (reply "from Coy" (1 # 2))).

Definition ex_declined : @AgentCoordinator Q :=
  {| agents := [ex_shy; ex_coy]; default_agent := Some ex_coy;
     enable_parallel := false; confidence_threshold := 1 # 2 |}.

(** A handler whose evaluator raises, registered before a willing one. *)
Definition ex_broken : @Agent Q :=
  scripted 1 "Broken" (Raise (HandlerError "scoring failed")) (fun _ => Ok (reply "from Broken" (1 # 2))).
Definition ex_beta : @Agent Q :=
  scripted 2 "Beta" (Ok (9 # 10)) (fun _ => Ok (reply "from Beta" (1 # 2))).

Definition ex_unguarded : @AgentCoordinator Q :=
  {| agents := [ex_broken; ex_beta]; default_agent := Some ex_beta;
     enable_parallel := false; confidence_threshold := 1 # 2 |}.

(** A handler that reports the [preferred_agent] field it was given. *)
Definition ex_echo : @Agent Q :=
  scripted 1 "Echo" (Ok (9 # 10))
    (fun task => Ok (reply (default "nobody" (preferred_agent task)) (1 # 2))).

Definition ex_echoing : @AgentCoordinator Q :=
  {| agents := [ex_echo]; default_agent := Some ex_echo;
     enable_parallel := false; confidence_threshold := 1 # 2 |}.

(** A fan-out in which the top-ranked handler raises and the default
    handler, itself below the threshold, answers for it. *)
Definition ex_fa : @Agent Q :=
  scripted 1 "A" (Ok (9 # 10)) (fun _ => Raise (HandlerError "backend unavailable")).
Definition ex_fb : @Agent Q :=
  scripted 2 "B" (Ok (7 # 10)) (fun _ => Ok (reply "from B" (2 # 10))).
Definition ex_fd : @Agent Q :=
  scripted 3 "D" (Ok (3 # 10)) (fun _ => Ok (reply "from D" (8 # 10))).

Definition ex_fan_fallback : @AgentCoordinator Q :=
  {| agents := [ex_fa; ex_fb; ex_fd]; default_agent := Some ex_fd;
     enable_parallel := true; confidence_threshold := 1 # 2 |}.

(** The task used throughout, and the worlds the scenarios reach once
    the suitability evaluations are done. *)
Definition ex_hello : Task := ask "hello" None.

Definition ex_tie_scores : list Q := [9 # 10; 9 # 10; 1 # 2; 0%Q].
Definition ex_tie_evaluated : @World Q :=
  {| env := 4%Q;
     trace := [EvSuitability 1; EvSuitability 2; EvSuitability 3; EvSuitability 4] |}.

Definition ex_fan_scores : list Q := [9 # 10; 7 # 10; 3 # 10].
Definition ex_fan_evaluated : @World Q :=
  {| env := 3%Q; trace := [EvSuitability 1; EvSuitability 2; EvSuitability 3] |}.

Definition ex_declined_scores : list Q := [0%Q; (- (1 # 2))%Q].
Definition ex_declined_evaluated : @World Q :=
  {| env := 2%Q; trace := [EvSuitability 1; EvSuitability 2] |}.

(** * Properties *)

(** ** Comparisons on scores *)

Lemma Qlt_bool_true (x y : Q) : Qlt_bool x y = true <-> (x < y)%Q.
Proof.
  unfold Qlt_bool. rewrite negb_true_iff. split.
  - intros H. apply Qnot_le_lt. intros Hle.
    apply Qle_bool_iff in Hle. congruence.
  - intros H. destruct (Qle_bool y x) eqn:E; [|reflexivity].
    apply Qle_bool_iff in E. lra.
Qed.

Lemma Qlt_bool_false (x y : Q) : Qlt_bool x y = false <-> (y <= x)%Q.
Proof.
  unfold Qlt_bool. rewrite negb_false_iff. apply Qle_bool_iff.
Qed.

(** ** The stable descending sort *)

Section Sorting.

Context {A : Type} (key : A -> Q).

Lemma insert_desc_perm (x : A) (l : list A) :
  Permutation (insert_desc key x l) (x :: l).
Proof.
  induction l as [|y r IH]; simpl; [reflexivity|].
  destruct (Qlt_bool (key x) (key y)); [|reflexivity].
  rewrite IH. apply perm_swap.
Qed.

Lemma sort_desc_perm (l : list A) : Permutation (sort_desc key l) l.
Proof.
  induction l as [|x l IH]; simpl; [reflexivity|].
  rewrite insert_desc_perm. by constructor.
Qed.

Lemma insert_desc_sorted (x : A) (l : list A) :
  StronglySorted (ge_key key) l -> StronglySorted (ge_key key) (insert_desc key x l).
Proof.
  induction 1 as [|y r Hr IH Hy]; simpl.
  - repeat constructor.
  - destruct (Qlt_bool (key x) (key y)) eqn:E.
    + apply Qlt_bool_true in E. constructor; [exact IH|].
      eapply Permutation_Forall; [symmetry; apply insert_desc_perm|].
      constructor; [|exact Hy]. unfold ge_key. lra.
    + apply Qlt_bool_false in E. constructor; [by constructor|].
      constructor; [exact E|].
      eapply Forall_impl; [exact Hy|]. unfold ge_key. intros z Hz. simpl in Hz. lra.
Qed.

Lemma sort_desc_sorted (l : list A) : StronglySorted (ge_key key) (sort_desc key l).
Proof.
  induction l as [|x l IH]; simpl; [constructor|].
  by apply insert_desc_sorted.
Qed.

(** Stability: the elements of any one score keep their order. *)
Lemma insert_desc_stable (q : Q) (x : A) (l : list A) :
  filter (fun a => Qeq_bool (key a) q = true) (insert_desc key x l)
  = filter (fun a => Qeq_bool (key a) q = true) (x :: l).
Proof.
  induction l as [|y r IH]; simpl; [reflexivity|].
  destruct (Qlt_bool (key x) (key y)) eqn:E; [|reflexivity].
  apply Qlt_bool_true in E.
  rewrite filter_cons, IH, !filter_cons.
  destruct (decide (Qeq_bool (key y) q = true)) as [Hy|Hy];
    destruct (decide (Qeq_bool (key x) q = true)) as [Hx|Hx]; try reflexivity.
  apply Qeq_bool_iff in Hy, Hx. lra.
Qed.

Lemma sort_desc_stable (q : Q) (l : list A) :
  filter (fun a => Qeq_bool (key a) q = true) (sort_desc key l)
  = filter (fun a => Qeq_bool (key a) q = true) l.
Proof.
  induction l as [|x l IH]; simpl; [reflexivity|].
  rewrite insert_desc_stable, !filter_cons, IH. reflexivity.
Qed.

Lemma sort_desc_elem_of (a : A) (l : list A) : a ∈ sort_desc key l <-> a ∈ l.
Proof. by rewrite (sort_desc_perm l). Qed.

Lemma sort_desc_length (l : list A) : length (sort_desc key l) = length l.
Proof. apply Permutation_length, sort_desc_perm. Qed.

End Sorting.

Lemma insert_desc_map {A B} (f : A -> B) (key : B -> Q) (x : A) (l : list A) :
  insert_desc key (f x) (map f l) = map f (insert_desc (fun a => key (f a)) x l).
Proof.
  induction l as [|y r IH]; simpl; [reflexivity|].
  destruct (Qlt_bool (key (f x)) (key (f y))); simpl; [by rewrite IH|reflexivity].
Qed.

Lemma sort_desc_map {A B} (f : A -> B) (key : B -> Q) (l : list A) :
  sort_desc key (map f l) = map f (sort_desc (fun a => key (f a)) l).
Proof.
  induction l as [|x l IH]; simpl; [reflexivity|].
  by rewrite IH, insert_desc_map.
Qed.

(** ** The monad and [gather] *)

Section Properties.

Context {Env : Type} (wall : Env -> Q).

Abbreviation Agent := (@Agent Env).
Abbreviation World := (@World Env).
Abbreviation AgentCoordinator := (@AgentCoordinator Env).

Notation "'let*' x ':=' m 'in' k" := (bind m (fun x => k))
  (at level 10, x name, m at level 100, k at level 200).

Lemma gather_length {A} (ms : list (M A)) (w w' : World) (xs : list A) :
  gather ms w = (Ok xs, w') -> length xs = length ms.
Proof.
  revert w w' xs. induction ms as [|m ms IH]; intros w w' xs; simpl.
  - unfold ret. by intros [= <- <-].
  - destruct (m w) as [o w1]. destruct (gather ms w1) as [os w2] eqn:E.
    destruct o, os; intros [= <- <-]. simpl. f_equal. by eapply IH.
Qed.

(** ** Ranking *)

Lemma collect_scores_zip (pre rest : list Agent) (scores : list Q) :
  length scores = length rest ->
  collect_scores (pre ++ rest) (length pre) scores
  = Ok (map label (filter (fun p => Qlt_bool 0 (snd p) = true) (zip rest scores))).
Proof.
  revert pre rest. induction scores as [|s scores IH]; intros pre rest Hlen.
  - destruct rest; [reflexivity|discriminate].
  - destruct rest as [|a rest]; [discriminate|].
    injection Hlen as Hlen.
    specialize (IH (pre ++ [a]) rest Hlen).
    rewrite <- app_assoc, length_app in IH. simpl in IH.
    replace (length pre + 1)%nat with (S (length pre)) in IH by lia.
    simpl. rewrite filter_cons. simpl.
    destruct (Qlt_bool 0 s) eqn:E.
    + rewrite list_lookup_middle by reflexivity. rewrite IH.
      rewrite decide_True by reflexivity. reflexivity.
    + rewrite IH. rewrite decide_False by discriminate. reflexivity.
Qed.

Lemma evaluate_agents_ok (c : AgentCoordinator) (task : Task) (w w1 : World) (scores : list Q) :
  gather (map (call_eval task) (agents c)) w = (Ok scores, w1) ->
  _evaluate_agents c task w = (Ok (map label (ranked_agents (agents c) scores)), w1).
Proof.
  intros Hg. pose proof (gather_length _ _ _ _ Hg) as Hlen.
  rewrite length_map in Hlen.
  pose proof (collect_scores_zip [] (agents c) scores Hlen) as Hcs. simpl in Hcs.
  unfold _evaluate_agents, ranked_agents.
  destruct (map (call_eval task) (agents c)) as [|m ms] eqn:Hm.
  - destruct (agents c); [|discriminate]. destruct scores; [|discriminate].
    simpl in Hg. unfold ret in Hg. injection Hg as <-. reflexivity.
  - unfold bind. rewrite Hg. unfold lift. rewrite Hcs.
    unfold ret. rewrite sort_desc_map. reflexivity.
Qed.

Lemma label_positive_zip (ags : list Agent) (scores : list Q) :
  map label (filter (fun p => Qlt_bool 0 (snd p) = true) (zip ags scores))
  = filter (fun p => Qlt_bool 0 (snd p) = true) (zip (map name ags) scores).
Proof.
  revert scores. induction ags as [|a ags IH]; intros [|s scores]; simpl; try reflexivity.
  rewrite !filter_cons. simpl. destruct (decide (Qlt_bool 0 s = true)); simpl;
    by rewrite <- IH.
Qed.

(** C2: without a matching preferred handler, the ranked candidate list
    consists of exactly the (name, score) pairs of the registered handlers
    whose score is strictly positive (a permutation of them, in
    particular none with a score [<= 0]), sorted by descending score, and
    pairs of equal score keep their registration order. *)
Theorem evaluate_agents_ranking (c : AgentCoordinator) (task : Task)
    (w w1 : World) (scores : list Q) :
  gather (map (call_eval task) (agents c)) w = (Ok scores, w1) ->
  let candidates :=
    filter (fun p => Qlt_bool 0 (snd p) = true) (zip (map name (agents c)) scores) in
  exists ranked : list (string * Q),
    _evaluate_agents c task w = (Ok ranked, w1)
    /\ Permutation ranked candidates
    /\ StronglySorted (ge_key snd) ranked
    /\ (forall q : Q,
          filter (fun p => Qeq_bool (snd p) q = true) ranked
          = filter (fun p => Qeq_bool (snd p) q = true) candidates)
    /\ Forall (fun p => (0 < snd p)%Q) ranked.
Proof.
  intros Hg candidates.
  pose proof (label_positive_zip (agents c) scores) as Hc.
  fold candidates in Hc.
  exists (sort_desc snd candidates).
  split; [|split; [|split; [|split]]].
  - rewrite (evaluate_agents_ok _ _ _ _ _ Hg). unfold ranked_agents.
    rewrite <- Hc, sort_desc_map. reflexivity.
  - apply sort_desc_perm.
  - apply sort_desc_sorted.
  - intros q. apply sort_desc_stable.
  - apply Forall_forall. intros p Hp. apply sort_desc_elem_of in Hp.
    unfold candidates in Hp. apply list_elem_of_filter in Hp as [Hp _].
    by apply Qlt_bool_true.
Qed.

Lemma ranked_agents_nonpositive (ags : list Agent) (scores : list Q) :
  Forall (fun s => (s <= 0)%Q) scores -> ranked_agents ags scores = [].
Proof.
  intros H. unfold ranked_agents.
  replace (filter _ (zip ags scores)) with (@nil (Agent * Q)); [reflexivity|].
  symmetry. revert ags. induction H as [|s scores Hs _ IH]; intros [|a ags]; try reflexivity.
  simpl. rewrite filter_cons. simpl.
  rewrite decide_False; [apply IH|].
  intros E. apply Qlt_bool_true in E. lra.
Qed.

(** ** Calls on handlers and the trace *)

Lemma call_eq {A} (ev : Event) (f : Env -> Outcome A * Env) (w : World) :
  call ev f w = (fst (f (env w)), {| env := snd (f (env w)); trace := trace w ++ [ev] |}).
Proof. unfold call. by destruct (f (env w)). Qed.

Lemma gather_eval_trace (task : Task) (ags : list Agent) (w : World) :
  trace (snd (gather (map (call_eval task) ags) w))
  = trace w ++ map (fun a => EvSuitability (aid a)) ags.
Proof.
  revert w. induction ags as [|a ags IH]; intros w; simpl.
  - by rewrite app_nil_r.
  - unfold call_eval at 1. rewrite call_eq.
    match goal with |- context [gather ?ms ?w1] =>
      specialize (IH w1); destruct (gather ms w1) as [os w2] end.
    simpl in *. rewrite IH. simpl. by rewrite <- app_assoc.
Qed.

Lemma gather_first_raise {A} (ms1 ms2 : list (M A)) (m : M A)
    (w w0 w1 : World) (xs : list A) (e : Exn) :
  gather ms1 w = (Ok xs, w0) -> m w0 = (Raise e, w1) ->
  fst (gather (ms1 ++ m :: ms2) w) = Raise e.
Proof.
  revert w xs. induction ms1 as [|m1 ms1 IH]; intros w xs; simpl.
  - unfold ret. intros [= <- <-] Hm. rewrite Hm.
    by destruct (gather ms2 w1).
  - destruct (m1 w) as [o wa]. destruct (gather ms1 wa) as [os wb] eqn:E.
    intros Hg Hm.
    assert (exists x xs', o = Ok x /\ os = Ok xs') as (x & xs' & -> & ->).
    { destruct o, os; try discriminate; eauto. }
    injection Hg as <- <-.
    specialize (IH wa xs' E Hm).
    destruct (gather (ms1 ++ m :: ms2) wa) as [os' wc]. simpl in IH. by subst.
Qed.

Lemma msg_distinct (task : Task) :
  String.eqb (fallback_msg task) (primary_msg task) = false.
Proof. reflexivity. Qed.

(** ** The execution policy *)

Lemma execute_agent_unfold (c : AgentCoordinator) (a : Agent) (task : Task) (w : World) :
  _execute_agent c (Some a) task w
  = match primary_attempt a task w with
    | (Ok r, w1) => (Ok r, w1)
    | (Raise e, w1) =>
        if same_agent (Some a) (default_agent c) then (Raise e, w1)
        else match default_agent c with
             | Some d => fallback_attempt d task w1
             | None => (Raise AttributeError, w1)
             end
    end.
Proof.
  unfold _execute_agent, try_except, primary_attempt. simpl.
  change (bind (ret a) ?k w) with (k a w).
  match goal with |- context [bind ?m ?k w] => destruct (bind m k w) as [[r|e] w1] end;
    [reflexivity|].
  change (bind (ret a) ?k w1) with (k a w1). cbv beta.
  destruct (default_agent c) as [d|]; simpl; [|reflexivity].
  destruct (aid a =? aid d)%nat; reflexivity.
Qed.

Lemma primary_attempt_success (a : Agent) (task : Task) (w : World) (e1 e2 : Env) (r : Result) :
  log_activity a (primary_msg task) (env w) = (Ok tt, e1) ->
  process a task e1 = (Ok r, e2) ->
  primary_attempt a task w
  = (Ok r, {| env := e2;
              trace := trace w ++ [EvLog (aid a) (primary_msg task); EvProcess (aid a)] |}).
Proof.
  intros Hl Hp. unfold primary_attempt, bind, call_log, call_process, call.
  rewrite Hl. simpl. rewrite Hp. by rewrite <- app_assoc.
Qed.

Lemma execute_agent_success (c : AgentCoordinator) (a : Agent) (task : Task)
    (w : World) (e1 e2 : Env) (r : Result) :
  log_activity a (primary_msg task) (env w) = (Ok tt, e1) ->
  process a task e1 = (Ok r, e2) ->
  _execute_agent c (Some a) task w
  = (Ok r, {| env := e2;
              trace := trace w ++ [EvLog (aid a) (primary_msg task); EvProcess (aid a)] |}).
Proof.
  intros Hl Hp. rewrite execute_agent_unfold.
  by rewrite (primary_attempt_success _ _ _ _ _ _ Hl Hp).
Qed.

(** A failing handler other than the default is retried once, on the
    default handler, and whatever that retry does is the outcome. *)
Lemma execute_agent_fallback (c : AgentCoordinator) (a d : Agent) (task : Task)
    (w w1 : World) (e : Exn) :
  default_agent c = Some d -> aid a <> aid d ->
  primary_attempt a task w = (Raise e, w1) ->
  _execute_agent c (Some a) task w = fallback_attempt d task w1.
Proof.
  intros Hd Hne Hp. rewrite execute_agent_unfold, Hp, Hd. simpl.
  apply Nat.eqb_neq in Hne. by rewrite Hne.
Qed.

(** A failure of the default handler propagates. *)
Lemma execute_agent_default_raises (c : AgentCoordinator) (a d : Agent) (task : Task)
    (w w1 : World) (e : Exn) :
  default_agent c = Some d -> aid a = aid d ->
  primary_attempt a task w = (Raise e, w1) ->
  _execute_agent c (Some a) task w = (Raise e, w1).
Proof.
  intros Hd Heq Hp. rewrite execute_agent_unfold, Hp, Hd. simpl.
  apply Nat.eqb_eq in Heq. by rewrite Heq.
Qed.

(** ** Lookup by name *)

Lemma find_by_name_Some (ags : list Agent) (nm : string) (a : Agent) :
  find_by_name ags nm = Some a -> In a ags /\ lower (name a) = lower nm.
Proof.
  induction ags as [|x ags IH]; simpl; [discriminate|].
  destruct (String.eqb (lower (name x)) (lower nm)) eqn:E.
  - intros [= <-]. apply String.eqb_eq in E. auto.
  - intros H. destruct (IH H). auto.
Qed.

Lemma find_by_name_unique (ags : list Agent) (a : Agent) :
  NoDup (map (fun x => lower (name x)) ags) -> In a ags ->
  find_by_name ags (name a) = Some a.
Proof.
  induction ags as [|x ags IH]; simpl; [tauto|].
  intros Hnd Hin. apply NoDup_cons in Hnd as [Hx Hnd].
  destruct Hin as [->|Hin].
  - by rewrite String.eqb_refl.
  - destruct (String.eqb (lower (name x)) (lower (name a))) eqn:E; [|auto].
    apply String.eqb_eq in E. exfalso. apply Hx. rewrite E.
    apply list_elem_of_In, in_map_iff. eauto.
Qed.

(** ** Enrichment *)

Lemma prepare_result_agent_name (r : Result) (a : Agent) (t : Q) :
  _prepare_result r a t !! "agent_name" = Some (VStr (name a)).
Proof.
  unfold _prepare_result.
  rewrite lookup_insert_ne by discriminate.
  rewrite lookup_insert_ne by discriminate.
  apply lookup_insert_eq.
Qed.

Lemma prepare_result_agent_description (r : Result) (a : Agent) (t : Q) :
  _prepare_result r a t !! "agent_description" = Some (VStr (description a)).
Proof.
  unfold _prepare_result.
  rewrite lookup_insert_ne by discriminate.
  apply lookup_insert_eq.
Qed.

Lemma prepare_result_execution_time (r : Result) (a : Agent) (t : Q) :
  _prepare_result r a t !! "execution_time" = Some (VNum t).
Proof. unfold _prepare_result. apply lookup_insert_eq. Qed.

Lemma prepare_result_frame (r : Result) (a : Agent) (t : Q) (k : string) :
  k <> "agent_name" -> k <> "agent_description" -> k <> "execution_time" ->
  _prepare_result r a t !! k = r !! k.
Proof.
  intros H1 H2 H3. unfold _prepare_result.
  by rewrite !lookup_insert_ne.
Qed.

(** ** The paths through [process_task] *)

Lemma process_task_requested (c : AgentCoordinator) (task : Task) (a : Agent) (w : World) :
  requested_agent c task = Some a ->
  process_task wall c task w
  = (let* result := _execute_agent c (Some a) task in
     let* now := time wall in
     ret (_prepare_result result a (now - wall (env w)))) w.
Proof. intros H. unfold process_task, bind at 1, time at 1. by rewrite H. Qed.

Lemma process_task_not_requested (c : AgentCoordinator) (task : Task) (w : World) :
  requested_agent c task = None ->
  process_task wall c task w = process_task_auto wall c task (wall (env w)) w.
Proof. intros H. unfold process_task, bind at 1, time at 1. by rewrite H. Qed.

(** C5: when [preferred_agent] is set (a non-empty string) and names a
    registered handler case-insensitively, and that handler's call
    succeeds, [process_task] calls only that handler (its log and its
    [process], hence no suitability evaluation at all) and returns that
    handler's result enriched: the entries of the result the handler
    returned, with [agent_name] and [agent_description] those of that
    handler and [execution_time] the time elapsed. *)
Theorem process_task_preferred (c : AgentCoordinator) (task : Task) (w : World)
    (nm : string) (a : Agent) (e1 e2 : Env) (r : Result) :
  preferred_agent task = Some nm -> nm <> "" ->
  _get_agent_by_name c nm = Some a ->
  log_activity a (primary_msg task) (env w) = (Ok tt, e1) ->
  process a task e1 = (Ok r, e2) ->
  In a (agents c) /\ lower (name a) = lower nm
  /\ exists out : Result,
       process_task wall c task w
       = (Ok out,
          {| env := e2;
             trace := trace w ++ [EvLog (aid a) (primary_msg task); EvProcess (aid a)] |})
       /\ out !! "agent_name" = Some (VStr (name a))
       /\ out !! "agent_description" = Some (VStr (description a))
       /\ out !! "execution_time" = Some (VNum (wall e2 - wall (env w)))
       /\ (forall k, k <> "agent_name" -> k <> "agent_description" ->
                     k <> "execution_time" -> out !! k = r !! k).
Proof.
  intros Hp Hnm Hget Hlog Hproc.
  destruct (find_by_name_Some _ _ _ Hget) as [Hin Hlow].
  split; [exact Hin|]. split; [exact Hlow|].
  exists (_prepare_result r a (wall e2 - wall (env w))).
  split; [|split; [apply prepare_result_agent_name|
           split; [apply prepare_result_agent_description|
           split; [apply prepare_result_execution_time|]]]].
  - assert (Hreq : requested_agent c task = Some a).
    { unfold requested_agent. rewrite Hp. by destruct nm. }
    rewrite (process_task_requested _ _ _ _ Hreq). unfold bind.
    rewrite (execute_agent_success _ _ _ _ _ _ _ Hlog Hproc). reflexivity.
  - intros k H1 H2 H3. by apply prepare_result_frame.
Qed.

(** The defect behind C1, on the override path: when the requested
    handler is not the default and its attempt raises, the default
    handler's result is returned under the requested handler's name. *)
Lemma process_task_preferred_fallback (c : AgentCoordinator) (task : Task) (w w1 : World)
    (a d : Agent) (ex : Exn) (e2 e3 : Env) (r : Result) :
  requested_agent c task = Some a ->
  default_agent c = Some d -> aid a <> aid d ->
  primary_attempt a task w = (Raise ex, w1) ->
  log_activity d (fallback_msg task) (env w1) = (Ok tt, e2) ->
  process d task e2 = (Ok r, e3) ->
  process_task wall c task w
  = (Ok (_prepare_result r a (wall e3 - wall (env w))),
     {| env := e3;
        trace := trace w1 ++ [EvLog (aid d) (fallback_msg task); EvProcess (aid d)] |}).
Proof.
  intros Hreq Hd Hne Hfail Hlog Hproc.
  rewrite (process_task_requested _ _ _ _ Hreq). unfold bind.
  rewrite (execute_agent_fallback _ _ _ _ _ _ _ Hd Hne Hfail).
  unfold fallback_attempt, bind, call_log, call_process, call.
  rewrite Hlog. simpl. rewrite Hproc. simpl. by rewrite <- app_assoc.
Qed.

(** C7: when no preferred handler applies and every suitability score is
    [<= 0], the ranked list is empty and [process_task] hands the task to
    the default handler, whatever it is; when the default handler's call
    succeeds the returned mapping carries the default handler's name, and
    nothing but the evaluations and the default handler's call happened. *)
Theorem process_task_no_candidates (c : AgentCoordinator) (task : Task)
    (w w1 : World) (scores : list Q) (d : Agent) :
  requested_agent c task = None ->
  default_agent c = Some d ->
  gather (map (call_eval task) (agents c)) w = (Ok scores, w1) ->
  Forall (fun s => (s <= 0)%Q) scores ->
  _evaluate_agents c task w = (Ok [], w1)
  /\ process_task wall c task w
     = (let* result := _execute_agent c (Some d) task in
        let* now := time wall in
        ret (_prepare_result result d (now - wall (env w)))) w1
  /\ forall (e2 e3 : Env) (r : Result),
       log_activity d (primary_msg task) (env w1) = (Ok tt, e2) ->
       process d task e2 = (Ok r, e3) ->
       process_task wall c task w
       = (Ok (_prepare_result r d (wall e3 - wall (env w))),
          {| env := e3;
             trace := trace w1 ++ [EvLog (aid d) (primary_msg task); EvProcess (aid d)] |})
       /\ _prepare_result r d (wall e3 - wall (env w)) !! "agent_name"
          = Some (VStr (name d)).
Proof.
  intros Hreq Hd Hg Hs.
  assert (Hev : _evaluate_agents c task w = (Ok [], w1)).
  { rewrite (evaluate_agents_ok _ _ _ _ _ Hg).
    by rewrite (ranked_agents_nonpositive _ _ Hs). }
  assert (Hpt : process_task wall c task w
     = (let* result := _execute_agent c (Some d) task in
        let* now := time wall in
        ret (_prepare_result result d (now - wall (env w)))) w1).
  { rewrite (process_task_not_requested _ _ _ Hreq).
    unfold process_task_auto, bind at 1. by rewrite Hev, Hd. }
  split; [exact Hev|]. split; [exact Hpt|].
  intros e2 e3 r Hlog Hproc. split; [|apply prepare_result_agent_name].
  rewrite Hpt. unfold bind.
  rewrite (execute_agent_success _ _ _ _ _ _ _ Hlog Hproc). reflexivity.
Qed.

(** C6 (as amended): the coordinator has no guard around suitability
    evaluation.  When no preferred handler applies and some handler's
    [evaluate_suitability] raises (the handlers before it having
    answered), the exception leaves [_evaluate_agents] and
    [process_task]: no ranking is produced and no handler is executed,
    although every handler's evaluation was started. *)
Theorem process_task_evaluator_failure (c : AgentCoordinator) (task : Task)
    (w w0 : World) (before after : list Agent) (a : Agent)
    (scores : list Q) (e : Exn) (e1 : Env) :
  requested_agent c task = None ->
  agents c = before ++ a :: after ->
  gather (map (call_eval task) before) w = (Ok scores, w0) ->
  evaluate_suitability a task (env w0) = (Raise e, e1) ->
  exists w' : World,
    _evaluate_agents c task w = (Raise e, w')
    /\ process_task wall c task w = (Raise e, w')
    /\ trace w' = trace w ++ map (fun x => EvSuitability (aid x)) (agents c).
Proof.
  intros Hreq Hags Hg Hev.
  pose proof (gather_eval_trace task (agents c) w) as Htr.
  assert (Hr : fst (gather (map (call_eval task) (agents c)) w) = Raise e).
  { rewrite Hags, map_app. simpl.
    eapply gather_first_raise; [exact Hg|].
    unfold call_eval. rewrite call_eq, Hev. reflexivity. }
  destruct (gather (map (call_eval task) (agents c)) w) as [o w'] eqn:E.
  simpl in Hr, Htr. subst o. exists w'.
  assert (Hea : _evaluate_agents c task w = (Raise e, w')).
  { unfold _evaluate_agents.
    destruct (map (call_eval task) (agents c)) eqn:Hm.
    - rewrite Hags, map_app in Hm. by destruct before.
    - unfold bind. by rewrite E. }
  repeat split; [exact Hea| |exact Htr].
  rewrite (process_task_not_requested _ _ _ Hreq).
  unfold process_task_auto, bind at 1. by rewrite Hea.
Qed.

(** C9: constructing a coordinator with no handler raises the
    configuration error, whatever the other arguments, so no coordinator
    exists to process a task; with at least one handler and no default
    supplied, construction succeeds and the first registered handler is
    the default. *)
Theorem init_requires_agents (dflt : option Agent) (parallel : bool) (threshold : Q) :
  init [] dflt parallel threshold
  = Raise (ValueError "At least one agent must be provided")
  /\ forall (a : Agent) (ags : list Agent),
       init (a :: ags) None parallel threshold
       = Ok {| agents := a :: ags; default_agent := Some a;
               enable_parallel := parallel; confidence_threshold := threshold |}.
Proof. split; reflexivity. Qed.

(** ** Combination *)

Lemma well_formed_confidence_gt (r : Result) (bc : Q) :
  well_formed_confidence r ->
  confidence_gt r bc = Ok (Qlt_bool bc (confidence_of r), confidence_of r)
  /\ (0 <= confidence_of r)%Q.
Proof.
  unfold well_formed_confidence, confidence_gt, confidence_of.
  destruct (r !! "confidence") as [[|q|s]|]; simpl; try tauto.
  intros _. split; [reflexivity|lra].
Qed.

Lemma combine_loop_inv (ags : list (option Agent)) (rest : list Result) :
  forall (seen : list Result) (bc : Q) (best : option (Result * option Agent)),
    Forall well_formed_confidence rest ->
    (length seen + length rest <= length ags)%nat ->
    combine_inv ags seen bc best ->
    exists bc' best',
      combine_loop ags (length seen) rest bc best = Ok best'
      /\ combine_inv ags (seen ++ rest) bc' best'.
Proof.
  induction rest as [|result rest IH]; intros seen bc best Hwf Hlen Hinv.
  - exists bc, best. rewrite app_nil_r. by split.
  - apply Forall_cons in Hwf as [Hr Hwf].
    destruct (well_formed_confidence_gt result bc Hr) as [Hgt Hpos].
    simpl in Hlen. simpl. rewrite Hgt.
    assert (Hstep : forall bc1 best1,
              combine_inv ags (seen ++ [result]) bc1 best1 ->
              exists bc' best',
                combine_loop ags (S (length seen)) rest bc1 best1 = Ok best'
                /\ combine_inv ags (seen ++ result :: rest) bc' best').
    { intros bc1 best1 H1.
      specialize (IH (seen ++ [result]) bc1 best1 Hwf).
      rewrite length_app, <- app_assoc in IH. simpl in IH.
      replace (length seen + 1)%nat with (S (length seen)) in IH by lia.
      apply IH; [lia|exact H1]. }
    destruct (Qlt_bool bc (confidence_of result)) eqn:E.
    + apply Qlt_bool_true in E.
      destruct (lookup_lt_is_Some_2 ags (length seen)) as [agent Hagent]; [lia|].
      rewrite Hagent. apply Hstep. simpl.
      exists (length seen). split; [by apply list_lookup_middle|].
      split; [exact Hagent|]. split; [reflexivity|].
      assert (Hseen : forall j r', seen !! j = Some r' ->
                        (confidence_of r' < confidence_of result)%Q).
      { intros j r' Hj. destruct best as [[r a]|]; simpl in Hinv.
        - destruct Hinv as (i & _ & _ & _ & Hle & _).
          specialize (Hle j r' Hj). lra.
        - destruct Hinv as [-> _]. by rewrite lookup_nil in Hj. }
      split.
      * intros j r' Hj. apply lookup_app_Some in Hj as [Hj|[Hge Hj]].
        -- specialize (Hseen j r' Hj). lra.
        -- apply list_lookup_singleton_Some in Hj as [_ <-]. lra.
      * intros j r' Hlt Hj. rewrite lookup_app_l in Hj by exact Hlt.
        by eapply Hseen.
    + apply Qlt_bool_false in E. apply Hstep.
      destruct best as [[r a]|]; simpl in Hinv |- *.
      * destruct Hinv as (i & Hi & Ha & Hc & Hle & Hlt).
        exists i. split; [by apply lookup_app_l_Some|].
        split; [exact Ha|]. split; [exact Hc|]. split.
        -- intros j r' Hj. apply lookup_app_Some in Hj as [Hj|[Hge Hj]].
           ++ by eapply Hle.
           ++ by apply list_lookup_singleton_Some in Hj as [_ <-].
        -- intros j r' Hji Hj.
           pose proof (lookup_lt_Some _ _ _ Hi) as Hil.
           rewrite lookup_app_l in Hj by lia. by eapply Hlt.
      * destruct Hinv as [_ Hneg]. lra.
Qed.

Lemma truthy_dict_false (r : Result) : truthy_dict r = false -> r = empty.
Proof.
  unfold truthy_dict. destruct (map_to_list r) eqn:E; [|discriminate].
  intros _. by apply map_to_list_empty_iff.
Qed.

(** The selection rule of the combination step, on its own arguments:
    for a non-empty list of results whose confidences, when present, are
    non-negative numbers, [_combine_results] returns the result of
    highest confidence (a missing confidence reads as 0), the first such
    result in fan-out order; when no result carries a confidence that is
    the first result.  The returned mapping is that result enriched with
    the metadata of the agent at the same position of the agents list;
    apart from the three enrichment keys it holds that result's entries
    only. *)
Theorem combine_results_selects_first_highest (results : list Result)
    (ags : list Agent) (t : Q) :
  results <> [] -> length ags = length results ->
  Forall well_formed_confidence results ->
  exists (i : nat) (r : Result) (a : Agent),
    results !! i = Some r /\ ags !! i = Some a
    /\ (forall j r', results !! j = Some r' -> (confidence_of r' <= confidence_of r)%Q)
    /\ (forall j r', (j < i)%nat -> results !! j = Some r' ->
                     (confidence_of r' < confidence_of r)%Q)
    /\ _combine_results results (map Some ags) t = Ok (_prepare_result r a t)
    /\ (Forall (fun r' => r' !! "confidence" = None) results -> i = 0%nat)
    /\ (forall k, k <> "agent_name" -> k <> "agent_description" ->
                  k <> "execution_time" -> _prepare_result r a t !! k = r !! k).
Proof.
  intros Hne Hlen Hwf.
  destruct (combine_loop_inv (map Some ags) results [] (-1)%Q None Hwf) as (bc & best & Hloop & Hinv).
  { rewrite length_map. simpl. lia. }
  { simpl. split; [reflexivity|lra]. }
  simpl in Hloop, Hinv.
  destruct best as [[r oa]|]; simpl in Hinv; [|by destruct Hinv].
  destruct Hinv as (i & Hi & Ha & Hc & Hle & Hlt). subst bc.
  rewrite list_lookup_fmap in Ha.
  destruct (ags !! i) as [a|] eqn:Hai; [|discriminate]. injection Ha as <-.
  assert (Hzero : i <> 0%nat -> (0 < confidence_of r)%Q).
  { intros Hi0. destruct results as [|r0 results']; [done|].
    apply Forall_cons in Hwf as [Hr0 _].
    destruct (well_formed_confidence_gt r0 0 Hr0) as [_ Hpos].
    specialize (Hlt 0%nat r0). simpl in Hlt.
    assert (confidence_of r0 < confidence_of r)%Q by (apply Hlt; [lia|reflexivity]).
    lra. }
  exists i, r, a. repeat split; try assumption.
  - unfold _combine_results. rewrite Hloop.
    destruct (truthy_dict r) eqn:Ht; [reflexivity|].
    apply truthy_dict_false in Ht. subst r.
    destruct (decide (i = 0%nat)) as [->|Hi0].
    + rewrite Hi, list_lookup_fmap, Hai. reflexivity.
    + specialize (Hzero Hi0). unfold confidence_of in Hzero.
      rewrite lookup_empty in Hzero. lra.
  - intros Hnone. destruct (decide (i = 0%nat)) as [->|Hi0]; [reflexivity|].
    specialize (Hzero Hi0). unfold confidence_of in Hzero.
    rewrite Forall_forall in Hnone.
    rewrite (Hnone r) in Hzero; [lra|]. by eapply list_elem_of_lookup_2.
  - intros k H1 H2 H3. by apply prepare_result_frame.
Qed.

(** Outside the data model: when every confidence is a number at or
    below the initial [best_confidence] of -1, nothing is selected by the
    loop and the first result is returned. *)
Lemma combine_loop_below_sentinel (ags : list (option Agent)) (rs : list Result) (i : nat) :
  Forall (fun r => exists q, r !! "confidence" = Some (VNum q) /\ (q <= -1)%Q) rs ->
  combine_loop ags i rs (-1) None = Ok None.
Proof.
  intros H. revert i. induction H as [|r rs (q & Hq & Hle) _ IH]; intros i; [reflexivity|].
  simpl. unfold confidence_gt. rewrite Hq. simpl.
  apply Qlt_bool_false in Hle. rewrite Hle. apply IH.
Qed.

Lemma combine_results_below_sentinel (r0 : Result) (rs : list Result)
    (a0 : Agent) (ags : list (option Agent)) (t : Q) :
  Forall (fun r => exists q, r !! "confidence" = Some (VNum q) /\ (q <= -1)%Q) (r0 :: rs) ->
  _combine_results (r0 :: rs) (Some a0 :: ags) t = Ok (_prepare_result r0 a0 t).
Proof.
  intros H. unfold _combine_results.
  by rewrite (combine_loop_below_sentinel _ _ _ H).
Qed.

(** ** Where a returned result comes from *)

Lemma attempt_origin (a : Agent) (msg : string) (task : Task) (w w' : World) (r : Result) :
  (let* _ := call_log a msg in call_process a task) w = (Ok r, w') ->
  exists e e', process a task e = (Ok r, e').
Proof.
  unfold bind, call_log, call_process. rewrite call_eq.
  destruct (fst (log_activity a msg (env w))); [|discriminate].
  rewrite call_eq. simpl.
  match goal with |- context [process a task ?e] =>
    destruct (process a task e) as [o e'] eqn:E; exists e, e' end.
  simpl in *. congruence.
Qed.

Lemma execute_agent_origin (c : AgentCoordinator) (oa : option Agent) (task : Task)
    (w w' : World) (r : Result) :
  _execute_agent c oa task w = (Ok r, w') ->
  exists (p : Agent) (e e' : Env), process p task e = (Ok r, e').
Proof.
  destruct oa as [a|]; [|discriminate].
  rewrite execute_agent_unfold.
  destruct (primary_attempt a task w) as [[r1|ex] w1] eqn:E.
  - intros [= <- <-]. exists a. by eapply attempt_origin.
  - destruct (same_agent (Some a) (default_agent c)); [discriminate|].
    destruct (default_agent c) as [d|]; [|discriminate].
    intros H. exists d. by eapply attempt_origin.
Qed.

Lemma execute_parallel_origin (c : AgentCoordinator) (ags : list (option Agent))
    (task : Task) (w w' : World) (rs : list Result) :
  _execute_parallel c ags task w = (Ok rs, w') ->
  Forall (fun r => exists (p : Agent) (e e' : Env), process p task e = (Ok r, e')) rs.
Proof.
  unfold _execute_parallel. revert w rs.
  induction ags as [|oa ags IH]; intros w rs; simpl.
  - unfold ret. intros [= <- _]. constructor.
  - destruct (_execute_agent c oa task w) as [o w1] eqn:E1.
    destruct (gather _ w1) as [os w2] eqn:E2.
    destruct o as [r|], os as [l|]; try discriminate.
    intros [= <- <-]. constructor; [by eapply execute_agent_origin|by eapply IH].
Qed.

Lemma combine_loop_origin (ags : list (option Agent)) (rs : list Result) :
  forall (i : nat) (bc : Q) (best best' : option (Result * option Agent)),
    combine_loop ags i rs bc best = Ok best' ->
    best' = best \/ exists r oa, best' = Some (r, oa) /\ In r rs /\ In oa ags.
Proof.
  induction rs as [|result rs IH]; intros i bc best best'; simpl.
  - intros [= <-]. by left.
  - destruct (confidence_gt result bc) as [[[|] q]|]; [| |discriminate].
    + destruct (ags !! i) as [agent|] eqn:Ha; [|discriminate].
      intros H. right. destruct (IH _ _ _ _ H) as [->|(r & oa & -> & Hr & Hoa)].
      * exists result, agent. repeat split; [by left|].
        apply list_elem_of_In. by eapply list_elem_of_lookup_2.
      * exists r, oa. repeat split; [by right|exact Hoa].
    + intros H. destruct (IH _ _ _ _ H) as [->|(r & oa & -> & Hr & Hoa)]; [by left|].
      right. exists r, oa. repeat split; [by right|exact Hoa].
Qed.

Lemma combine_results_origin (rs : list Result) (ags : list (option Agent))
    (t : Q) (out : Result) :
  _combine_results rs ags t = Ok out ->
  exists (r : Result) (a : Agent),
    In r rs /\ In (Some a) ags /\ out = _prepare_result r a t.
Proof.
  unfold _combine_results.
  assert (Hfirst : match rs !! 0%nat, ags !! 0%nat with
                   | Some r0, Some a0 => prepare_ref r0 a0 t
                   | _, _ => Raise IndexError
                   end = Ok out ->
                   exists r a, In r rs /\ In (Some a) ags /\ out = _prepare_result r a t).
  { destruct rs as [|r0 rs']; [discriminate|]. destruct ags as [|[a0|] ags']; try discriminate.
    simpl. intros [= <-]. exists r0, a0. repeat split; by left. }
  destruct (combine_loop ags 0 rs (-1) None) as [best|] eqn:E; [|discriminate].
  destruct best as [[r oa]|]; [|exact Hfirst].
  destruct (truthy_dict r); [|exact Hfirst].
  destruct (combine_loop_origin _ _ _ _ _ _ E) as [?|(r' & oa' & [= <- <-] & Hr & Hoa)];
    [discriminate|].
  destruct oa as [a|]; [|discriminate]. simpl. intros [= <-].
  exists r, a. by repeat split.
Qed.

Lemma enrich_single_ok (c : AgentCoordinator) (a : Agent) (task : Task)
    (start : Q) (w w' : World) (out : Result) :
  (let* result := _execute_agent c (Some a) task in
   let* now := time wall in
   ret (_prepare_result result a (now - start))) w = (Ok out, w') ->
  exists (r : Result) (p : Agent) (e e' : Env),
    process p task e = (Ok r, e')
    /\ out = _prepare_result r a (wall (env w') - start).
Proof.
  unfold bind, time, ret.
  destruct (_execute_agent c (Some a) task w) as [[r|ex] w1] eqn:E; [|discriminate].
  intros [= <- <-].
  destruct (execute_agent_origin _ _ _ _ _ _ E) as (p & e & e' & Hp).
  by exists r, p, e, e'.
Qed.

(** ** The execution policy on the handlers' own operations *)

Lemma logged_attempt_ok (a : Agent) (msg : string) (task : Task) (w w' : World) (r : Result) :
  (let* _ := call_log a msg in call_process a task) w = (Ok r, w') ->
  exists e1, log_activity a msg (env w) = (Ok tt, e1)
             /\ process a task e1 = (Ok r, env w').
Proof.
  unfold bind, call_log, call_process, call.
  destruct (log_activity a msg (env w)) as [[[]|ex] e1] eqn:Hl; simpl; [|discriminate].
  destruct (process a task e1) as [[r1|ex] e2] eqn:Hp; simpl; [|discriminate].
  intros Heq. injection Heq as -> <-. by exists e1.
Qed.

Lemma logged_attempt_raise (a : Agent) (task : Task) (w w' : World) (ex : Exn) :
  primary_attempt a task w = (Raise ex, w') ->
  attempt_fails a task (env w) (env w').
Proof.
  unfold primary_attempt, bind, call_log, call_process, call, attempt_fails.
  destruct (log_activity a (primary_msg task) (env w)) as [[[]|ex1] e1] eqn:Hl; simpl.
  - destruct (process a task e1) as [[r1|ex2] e2] eqn:Hp; simpl; [discriminate|].
    intros Heq. injection Heq as _ <-. right. by exists e1, ex2.
  - intros Heq. injection Heq as _ <-. left. by exists ex1.
Qed.

Lemma execute_agent_served (c : AgentCoordinator) (a : Agent) (task : Task)
    (w w' : World) (r : Result) :
  _execute_agent c (Some a) task w = (Ok r, w') ->
  exists p : Agent, served_by c task a (env w) p r (env w').
Proof.
  rewrite execute_agent_unfold.
  destruct (primary_attempt a task w) as [[r1|ex] w1] eqn:E.
  - intros [= <- <-]. exists a. left. split; [reflexivity|].
    by apply logged_attempt_ok.
  - destruct (default_agent c) as [d|] eqn:Hd; simpl; [|discriminate].
    destruct (aid a =? aid d)%nat eqn:Hid; [discriminate|].
    apply Nat.eqb_neq in Hid. intros Hfb.
    destruct (logged_attempt_ok _ _ _ _ _ _ Hfb) as (e2 & Hlog & Hproc).
    exists d. right. split; [exact Hd|]. split; [exact Hid|].
    exists (env w1), e2. split; [by eapply logged_attempt_raise|by split].
Qed.

Lemma execute_parallel_fanned (c : AgentCoordinator) (oas : list (option Agent))
    (task : Task) (w w' : World) (rs : list Result) :
  _execute_parallel c oas task w = (Ok rs, w') ->
  exists (ags : list Agent) (prs : list (Agent * Result)),
    oas = map Some ags /\ map snd prs = rs
    /\ fanned_out c task ags (env w) prs (env w').
Proof.
  unfold _execute_parallel. revert w rs.
  induction oas as [|oa oas IH]; intros w rs; simpl.
  - unfold ret. intros [= <- <-]. exists [], []. repeat split. constructor.
  - destruct (_execute_agent c oa task w) as [o w1] eqn:E1.
    destruct (gather _ w1) as [os w2] eqn:E2.
    destruct o as [r|], os as [l|]; try discriminate.
    intros [= <- <-]. destruct oa as [a|]; [|discriminate].
    destruct (execute_agent_served _ _ _ _ _ _ E1) as [p Hp].
    destruct (IH _ _ E2) as (ags & prs & -> & <- & Hfan).
    exists (a :: ags), ((p, r) :: prs). repeat split. by econstructor.
Qed.

Lemma all_serve_execute_parallel (c : AgentCoordinator) (task : Task) (ags : list Agent)
    (w : World) (rs : list Result) (e' : Env) :
  all_serve task ags (env w) rs e' ->
  _execute_parallel c (map Some ags) task w
  = (Ok rs, {| env := e'; trace := trace w ++ served_events task ags |}).
Proof.
  unfold _execute_parallel. revert w rs.
  induction ags as [|a ags IH]; intros w rs Hs; inversion Hs; subst; simpl.
  - unfold ret, served_events. simpl. rewrite app_nil_r. by destruct w.
  - match goal with Hl : log_activity _ _ _ = _, Hp : process _ _ _ = _ |- _ =>
      rewrite (execute_agent_success c _ _ _ _ _ _ Hl Hp) end.
    match goal with Hrest : all_serve _ _ _ _ _ |- _ =>
      rewrite (IH {| env := e2; trace := trace w
                       ++ [EvLog (aid a) (primary_msg task); EvProcess (aid a)] |} _ Hrest) end.
    simpl. unfold served_events. simpl. by rewrite <- app_assoc.
Qed.

Lemma all_serve_length (task : Task) (ags : list Agent) (e e' : Env) (rs : list Result) :
  all_serve task ags e rs e' -> length rs = length ags.
Proof. induction 1; simpl; congruence. Qed.

(** ** Where a returned result comes from, position by position *)

Lemma combine_loop_aligned (ags : list (option Agent)) (rs : list Result) :
  forall (i : nat) (bc : Q) (best best' : option (Result * option Agent)),
    combine_loop ags i rs bc best = Ok best' ->
    best' = best
    \/ exists j r oa, best' = Some (r, oa) /\ rs !! j = Some r /\ ags !! (i + j)%nat = Some oa.
Proof.
  induction rs as [|result rs IH]; intros i bc best best'; simpl.
  - intros [= <-]. by left.
  - assert (Hshift : forall bc1 best1,
              combine_loop ags (S i) rs bc1 best1 = Ok best' ->
              best' = best1
              \/ exists j r oa, best' = Some (r, oa) /\ (result :: rs) !! j = Some r
                                /\ ags !! (i + j)%nat = Some oa).
    { intros bc1 best1 H. destruct (IH _ _ _ _ H) as [->|(j & r & oa & -> & Hr & Hoa)];
        [by left|].
      right. exists (S j), r, oa. repeat split; [exact Hr|].
      by replace (i + S j)%nat with (S i + j)%nat by lia. }
    destruct (confidence_gt result bc) as [[[|] q]|]; [| |discriminate].
    + destruct (ags !! i) as [agent|] eqn:Ha; [|discriminate].
      intros H. right. destruct (Hshift _ _ H) as [->|Hex]; [|exact Hex].
      exists 0%nat, result, agent. repeat split. by rewrite Nat.add_0_r.
    + apply Hshift.
Qed.

Lemma combine_results_aligned (rs : list Result) (oas : list (option Agent))
    (t : Q) (out : Result) :
  _combine_results rs oas t = Ok out ->
  exists (i : nat) (r : Result) (a : Agent),
    rs !! i = Some r /\ oas !! i = Some (Some a) /\ out = _prepare_result r a t.
Proof.
  unfold _combine_results.
  assert (Hfirst : match rs !! 0%nat, oas !! 0%nat with
                   | Some r0, Some a0 => prepare_ref r0 a0 t
                   | _, _ => Raise IndexError
                   end = Ok out ->
                   exists i r a, rs !! i = Some r /\ oas !! i = Some (Some a)
                                 /\ out = _prepare_result r a t).
  { destruct (rs !! 0%nat) as [r0|] eqn:Hr; [|discriminate].
    destruct (oas !! 0%nat) as [[a0|]|] eqn:Ha; try discriminate.
    simpl. intros [= <-]. by exists 0%nat, r0, a0. }
  destruct (combine_loop oas 0 rs (-1) None) as [best|] eqn:E; [|discriminate].
  destruct best as [[r oa]|]; [|exact Hfirst].
  destruct (truthy_dict r); [|exact Hfirst].
  destruct (combine_loop_aligned _ _ _ _ _ _ E) as [?|(j & r' & oa' & [= <- <-] & Hr & Hoa)];
    [discriminate|].
  destruct oa as [a|]; [|discriminate]. simpl. intros [= <-].
  by exists j, r, a.
Qed.

Lemma evaluate_agents_gather (c : AgentCoordinator) (task : Task) (w w1 : World)
    (ranked : list (string * Q)) :
  _evaluate_agents c task w = (Ok ranked, w1) ->
  exists scores, gather (map (call_eval task) (agents c)) w = (Ok scores, w1).
Proof.
  unfold _evaluate_agents.
  destruct (map (call_eval task) (agents c)) as [|m ms] eqn:Hm.
  - unfold bind, ret. intros [= _ <-]. by exists [].
  - unfold bind, lift, ret.
    destruct (gather (m :: ms) w) as [[scores|ex] w2]; [|discriminate].
    destruct (collect_scores (agents c) 0 scores); [|discriminate].
    intros [= _ <-]. by exists scores.
Qed.

Lemma requested_agent_registered (c : AgentCoordinator) (task : Task) (a : Agent) :
  requested_agent c task = Some a -> In a (agents c).
Proof.
  unfold requested_agent. destruct (preferred_agent task) as [nm|]; [|discriminate].
  destruct (truthy_str nm); [|discriminate].
  intros H. by destruct (find_by_name_Some _ _ _ H).
Qed.

Lemma enrich_single_served (c : AgentCoordinator) (a : Agent) (task : Task)
    (start : Q) (w w' : World) (out : Result) :
  (let* result := _execute_agent c (Some a) task in
   let* now := time wall in
   ret (_prepare_result result a (now - start))) w = (Ok out, w') ->
  exists (r : Result) (p : Agent),
    served_by c task a (env w) p r (env w')
    /\ out = _prepare_result r a (wall (env w') - start).
Proof.
  unfold bind, time, ret.
  destruct (_execute_agent c (Some a) task w) as [[r|ex] w1] eqn:E; [|discriminate].
  intros [= <- <-].
  destruct (execute_agent_served _ _ _ _ _ _ E) as (p & Hp).
  by exists r, p.
Qed.

(** C8: whatever path [process_task] takes, a returned mapping is the
    result mapping that a handler's [process] returned in this very run,
    with the three keys [agent_name], [agent_description] and
    [execution_time] set by the coordinator (overriding any value the
    handler stored there); every other key passes through unchanged, and
    [execution_time] is the clock reading on return minus the reading on
    entry to [process_task].  The run is one of: the requested handler
    served from the initial environment; after the evaluations, the
    default or the top-ranked handler served; or, after the evaluations, a
    fan-out of which the result at one position is taken and enriched with
    the agent at that position. *)
Theorem process_task_enrichment (c : AgentCoordinator) (task : Task)
    (w w' : World) (out : Result) :
  process_task wall c task w = (Ok out, w') ->
  exists (r : Result) (a p : Agent),
    (In a (agents c) \/ default_agent c = Some a)
    /\ ((requested_agent c task = Some a
         /\ served_by c task a (env w) p r (env w'))
        \/ (requested_agent c task = None
            /\ exists (scores : list Q) (w1 : World),
                 gather (map (call_eval task) (agents c)) w = (Ok scores, w1)
                 /\ (served_by c task a (env w1) p r (env w')
                     \/ exists (ags : list Agent) (prs : list (Agent * Result)) (i : nat),
                          fanned_out c task ags (env w1) prs (env w')
                          /\ ags !! i = Some a /\ prs !! i = Some (p, r))))
    /\ out !! "agent_name" = Some (VStr (name a))
    /\ out !! "agent_description" = Some (VStr (description a))
    /\ out !! "execution_time" = Some (VNum (wall (env w') - wall (env w)))
    /\ (forall k, k <> "agent_name" -> k <> "agent_description" ->
                  k <> "execution_time" -> out !! k = r !! k).
Proof.
  intros H.
  assert (Hmain : exists (r : Result) (a p : Agent),
    (In a (agents c) \/ default_agent c = Some a)
    /\ ((requested_agent c task = Some a
         /\ served_by c task a (env w) p r (env w'))
        \/ (requested_agent c task = None
            /\ exists (scores : list Q) (w1 : World),
                 gather (map (call_eval task) (agents c)) w = (Ok scores, w1)
                 /\ (served_by c task a (env w1) p r (env w')
                     \/ exists (ags : list Agent) (prs : list (Agent * Result)) (i : nat),
                          fanned_out c task ags (env w1) prs (env w')
                          /\ ags !! i = Some a /\ prs !! i = Some (p, r))))
    /\ out = _prepare_result r a (wall (env w') - wall (env w))).
  { destruct (requested_agent c task) as [a|] eqn:Hreq.
    - rewrite (process_task_requested _ _ _ _ Hreq) in H.
      destruct (enrich_single_served _ _ _ _ _ _ _ H) as (r & p & Hs & ->).
      exists r, a, p. split; [left; by eapply requested_agent_registered|].
      split; [left; by split|reflexivity].
    - rewrite (process_task_not_requested _ _ _ Hreq) in H.
      unfold process_task_auto, bind at 1 in H.
      destruct (_evaluate_agents c task w) as [[ranked|ex] w1] eqn:Hev; [|discriminate].
      destruct (evaluate_agents_gather _ _ _ _ _ Hev) as [scores Hg].
      assert (Hsingle : forall b, (In b (agents c) \/ default_agent c = Some b) ->
         (let* result := _execute_agent c (Some b) task in
          let* now := time wall in
          ret (_prepare_result result b (now - wall (env w)))) w1 = (Ok out, w') ->
         exists (r : Result) (a p : Agent),
           (In a (agents c) \/ default_agent c = Some a)
           /\ ((None = Some a /\ served_by c task a (env w) p r (env w'))
               \/ (@None Agent = None
                   /\ exists (scores : list Q) (w1 : World),
                        gather (map (call_eval task) (agents c)) w = (Ok scores, w1)
                        /\ (served_by c task a (env w1) p r (env w')
                            \/ exists (ags : list Agent) (prs : list (Agent * Result))
                                      (i : nat),
                                 fanned_out c task ags (env w1) prs (env w')
                                 /\ ags !! i = Some a /\ prs !! i = Some (p, r))))
           /\ out = _prepare_result r a (wall (env w') - wall (env w))).
      { intros b Hb Hrun.
        destruct (enrich_single_served _ _ _ _ _ _ _ Hrun) as (r & p & Hs & ->).
        exists r, b, p. split; [exact Hb|]. split; [|reflexivity].
        right. split; [reflexivity|]. exists scores, w1. split; [exact Hg|by left]. }
      destruct ranked as [|[best_name best_score] rest].
      + destruct (default_agent c) as [d|] eqn:Hd; [|discriminate].
        apply (Hsingle d); [by right|exact H].
      + assert (Hbest : (let* b := deref (_get_agent_by_name c best_name) in
                         let* result := _execute_agent c (Some b) task in
                         let* now := time wall in
                         ret (_prepare_result result b (now - wall (env w)))) w1
                        = (Ok out, w') ->
                 exists (r : Result) (a p : Agent),
                   (In a (agents c) \/ default_agent c = Some a)
                   /\ ((None = Some a /\ served_by c task a (env w) p r (env w'))
                       \/ (@None Agent = None
                           /\ exists (scores : list Q) (w1 : World),
                                gather (map (call_eval task) (agents c)) w = (Ok scores, w1)
                                /\ (served_by c task a (env w1) p r (env w')
                                    \/ exists (ags : list Agent)
                                              (prs : list (Agent * Result)) (i : nat),
                                         fanned_out c task ags (env w1) prs (env w')
                                         /\ ags !! i = Some a /\ prs !! i = Some (p, r))))
                   /\ out = _prepare_result r a (wall (env w') - wall (env w))).
        { destruct (_get_agent_by_name c best_name) as [b|] eqn:Hb; [|discriminate].
          intros Hrun. apply (Hsingle b); [left|exact Hrun].
          by destruct (find_by_name_Some _ _ _ Hb). }
        cbv zeta in H.
        destruct (enable_parallel c && (1 <? length ((best_name, best_score) :: rest))%nat);
          [|by apply Hbest].
        match type of H with context [(1 <? length ?l)%nat] =>
          destruct (1 <? length l)%nat; [|by apply Hbest] end.
        unfold bind, time, lift in H.
        match type of H with context [_execute_parallel c ?l task w1] =>
          destruct (_execute_parallel c l task w1) as [[rs|ex] w2] eqn:Epar;
            [|discriminate]; set (pa := l) in * end.
        injection H as Hout <-.
        destruct (combine_results_aligned _ _ _ _ Hout) as (i & r & a & Hr & Ha & ->).
        destruct (execute_parallel_fanned _ _ _ _ _ _ Epar) as (ags & prs & Hpa & Hrs & Hfan).
        assert (Hai : ags !! i = Some a).
        { rewrite Hpa, list_lookup_fmap in Ha.
          destruct (ags !! i) as [x|]; [|discriminate]. simpl in Ha. congruence. }
        assert (Hpi : exists p, prs !! i = Some (p, r)).
        { rewrite <- Hrs, list_lookup_fmap in Hr.
          destruct (prs !! i) as [[p r']|]; [|discriminate].
          simpl in Hr. injection Hr as ->. by exists p. }
        destruct Hpi as [p Hpi].
        exists r, a, p. split; [|split; [|reflexivity]].
        * left. assert (Hin : In (Some a) pa).
          { apply list_elem_of_In. by eapply list_elem_of_lookup_2. }
          unfold pa in Hin. apply in_map_iff in Hin as (q & Hq & _).
          by destruct (find_by_name_Some _ _ _ Hq).
        * right. split; [reflexivity|]. exists scores, w1. split; [exact Hg|].
          right. by exists ags, prs, i. }
  destruct Hmain as (r & a & p & Ha & Hpath & ->).
  exists r, a, p. split; [exact Ha|]. split; [exact Hpath|].
  split; [apply prepare_result_agent_name|].
  split; [apply prepare_result_agent_description|].
  split; [apply prepare_result_execution_time|].
  intros k H1 H2 H3. by apply prepare_result_frame.
Qed.

(** ** Which handlers are executed *)

Lemma executed_app (task : Task) (l1 l2 : list Event) :
  executed task (l1 ++ l2) = executed task l1 ++ executed task l2.
Proof. apply omap_app. Qed.

Lemma events_since_app (w w' : World) (evs : list Event) :
  trace w' = trace w ++ evs -> events_since (length (trace w)) w' = evs.
Proof. intros H. unfold events_since. rewrite H. apply drop_app_length. Qed.

Lemma attempt_trace (a : Agent) (msg : string) (task : Task) (w : World) :
  exists evs : list Event,
    trace (snd ((let* _ := call_log a msg in call_process a task) w))
    = trace w ++ EvLog (aid a) msg :: evs
    /\ (evs = [] \/ evs = [EvProcess (aid a)]).
Proof.
  unfold bind, call_log, call_process. rewrite call_eq.
  destruct (fst (log_activity a msg (env w))).
  - rewrite call_eq. simpl. exists [EvProcess (aid a)].
    split; [by rewrite <- app_assoc|by right].
  - exists []. split; [reflexivity|by left].
Qed.

Lemma executed_log (task : Task) (a : nat) (msg : string) (evs : list Event) :
  executed task (EvLog a msg :: evs)
  = (if String.eqb msg (primary_msg task) then [a] else []) ++ executed task evs.
Proof. unfold executed. simpl. by destruct (String.eqb msg (primary_msg task)). Qed.

Lemma executed_tail (task : Task) (a : nat) (evs : list Event) :
  evs = [] \/ evs = [EvProcess a] -> executed task evs = [].
Proof. by intros [-> | ->]. Qed.

Lemma execute_agent_trace (c : AgentCoordinator) (a : Agent) (task : Task) (w : World) :
  exists evs : list Event,
    trace (snd (_execute_agent c (Some a) task w)) = trace w ++ evs
    /\ executed task evs = [aid a].
Proof.
  rewrite execute_agent_unfold.
  destruct (attempt_trace a (primary_msg task) task w) as (evs & Htr & Hevs).
  fold (primary_attempt a task) in Htr.
  assert (Hex : executed task (EvLog (aid a) (primary_msg task) :: evs) = [aid a]).
  { by rewrite executed_log, String.eqb_refl, (executed_tail _ _ _ Hevs). }
  destruct (primary_attempt a task w) as [[r|ex] w1]; simpl in Htr.
  - eauto.
  - destruct (same_agent (Some a) (default_agent c)); [eauto|].
    destruct (default_agent c) as [d|]; [|eauto].
    destruct (attempt_trace d (fallback_msg task) task w1) as (evs' & Htr' & Hevs').
    fold (fallback_attempt d task) in Htr'.
    exists ((EvLog (aid a) (primary_msg task) :: evs) ++ EvLog (aid d) (fallback_msg task) :: evs').
    split; [by rewrite Htr', Htr, <- app_assoc|].
    by rewrite executed_app, Hex, executed_log, msg_distinct, (executed_tail _ _ _ Hevs').
Qed.

Lemma execute_parallel_trace (c : AgentCoordinator) (ags : list Agent) (task : Task) (w : World) :
  exists evs : list Event,
    trace (snd (_execute_parallel c (map Some ags) task w)) = trace w ++ evs
    /\ executed task evs = map aid ags.
Proof.
  unfold _execute_parallel. revert w.
  induction ags as [|a ags IH]; intros w; simpl.
  - exists []. by rewrite app_nil_r.
  - destruct (execute_agent_trace c a task w) as (evs1 & Htr1 & Hex1).
    destruct (_execute_agent c (Some a) task w) as [o w1]. simpl in Htr1.
    destruct (IH w1) as (evs2 & Htr2 & Hex2).
    destruct (gather _ w1) as [os w2]. simpl in *.
    exists (evs1 ++ evs2). split; [by rewrite Htr2, Htr1, <- app_assoc|].
    by rewrite executed_app, Hex1, Hex2.
Qed.

(** Reading the clock and building the answer leave the world as the
    execution left it. *)
Lemma enrich_world {A B} (m : M A) (f : A -> Q -> Outcome B) (w : World) :
  snd ((let* x := m in let* now := time wall in lift (f x now)) w) = snd (m w).
Proof. unfold bind, time, lift. by destruct (m w) as [[x|ex] w1]. Qed.

Lemma enrich_world_ret {A B} (m : M A) (f : A -> Q -> B) (w : World) :
  snd ((let* x := m in let* now := time wall in ret (f x now)) w) = snd (m w).
Proof. exact (enrich_world m (fun x now => Ok (f x now)) w). Qed.

(** ** Candidates and the agents behind them *)

Lemma ranked_agents_registered (ags : list Agent) (scores : list Q) (p : Agent * Q) :
  In p (ranked_agents ags scores) -> In (fst p) ags.
Proof.
  intros H. apply list_elem_of_In, sort_desc_elem_of, list_elem_of_filter in H as [_ H].
  destruct p as [a s]. apply elem_of_zip_l in H. by apply list_elem_of_In.
Qed.

Lemma resolve_labels (ags : list Agent) (thr : Q) (l : list (Agent * Q)) :
  NoDup (map (fun x => lower (name x)) ags) ->
  (forall p, In p l -> In (fst p) ags) ->
  map (fun p => find_by_name ags (fst p))
      (filter (fun p => Qle_bool thr (snd p) = true) (map label l))
  = map Some (map fst (filter (fun p => Qle_bool thr (snd p) = true) l)).
Proof.
  intros Hnd. induction l as [|[a s] l IH]; intros Hin; [reflexivity|].
  simpl. rewrite !filter_cons. simpl.
  assert (IH' := IH (fun p Hp => Hin p (or_intror Hp))).
  destruct (decide (Qle_bool thr s = true)); simpl; [|exact IH'].
  rewrite IH'. f_equal. apply find_by_name_unique; [exact Hnd|].
  apply (Hin (a, s)). by left.
Qed.

(** C4: without a matching preferred handler and with a non-empty ranked
    list (handler names being unique up to case), [process_task] fans out
    exactly when [enable_parallel] holds, more than one candidate exists
    and more than one candidate has a score [>= confidence_threshold];
    then the handlers handed to the execution policy are exactly the
    candidates with such a score, in rank order, and the answer is the
    combination of their results: when each of them answers, [process]
    was called on each of them and on nobody else, and the returned
    mapping holds the entries of the result of one of them, under that
    one's name.  In every other case the only handler handed to the
    execution policy is the top-ranked candidate: when it answers, its
    [process] is the only one called and the returned mapping holds the
    entries of its result under its name. *)
Theorem process_task_fan_out_decision (c : AgentCoordinator) (task : Task)
    (w w1 : World) (scores : list Q) :
  requested_agent c task = None ->
  NoDup (map (fun a => lower (name a)) (agents c)) ->
  gather (map (call_eval task) (agents c)) w = (Ok scores, w1) ->
  ranked_agents (agents c) scores <> [] ->
  let candidates := ranked_agents (agents c) scores in
  let qualifying :=
    map fst (filter (fun p => Qle_bool (confidence_threshold c) (snd p) = true) candidates) in
  let after := events_since (length (trace w1)) (snd (process_task wall c task w)) in
  (enable_parallel c = true /\ (1 < length candidates)%nat /\ (1 < length qualifying)%nat ->
     process_task wall c task w
     = (let* results := _execute_parallel c (map Some qualifying) task in
        let* now := time wall in
        lift (_combine_results results (map Some qualifying) (now - wall (env w)))) w1
     /\ executed task after = map aid qualifying
     /\ forall (rs : list Result) (e' : Env),
          all_serve task qualifying (env w1) rs e' ->
          process_task wall c task w
          = (_combine_results rs (map Some qualifying) (wall e' - wall (env w)),
             {| env := e'; trace := trace w1 ++ served_events task qualifying |})
          /\ forall out : Result,
               _combine_results rs (map Some qualifying) (wall e' - wall (env w)) = Ok out ->
               exists (i : nat) (r : Result) (a : Agent),
                 rs !! i = Some r /\ qualifying !! i = Some a
                 /\ out !! "agent_name" = Some (VStr (name a))
                 /\ (forall k, k <> "agent_name" -> k <> "agent_description" ->
                               k <> "execution_time" -> out !! k = r !! k))
  /\ (~ (enable_parallel c = true /\ (1 < length candidates)%nat
         /\ (1 < length qualifying)%nat) ->
      exists (best : Agent) (s : Q) (rest : list (Agent * Q)),
        candidates = (best, s) :: rest
        /\ process_task wall c task w
           = (let* result := _execute_agent c (Some best) task in
              let* now := time wall in
              ret (_prepare_result result best (now - wall (env w)))) w1
        /\ executed task after = [aid best]
        /\ forall (e2 e3 : Env) (r : Result),
             log_activity best (primary_msg task) (env w1) = (Ok tt, e2) ->
             process best task e2 = (Ok r, e3) ->
             exists out : Result,
               process_task wall c task w
               = (Ok out,
                  {| env := e3;
                     trace := trace w1 ++ [EvLog (aid best) (primary_msg task);
                                           EvProcess (aid best)] |})
               /\ out !! "agent_name" = Some (VStr (name best))
               /\ (forall k, k <> "agent_name" -> k <> "agent_description" ->
                             k <> "execution_time" -> out !! k = r !! k)).
Proof.
  intros Hreq Hnd Hg Hne candidates qualifying after.
  pose proof (evaluate_agents_ok _ _ _ _ _ Hg) as Hev. fold candidates in Hev.
  assert (Hreg : forall p, In p candidates -> In (fst p) (agents c))
    by apply ranked_agents_registered.
  assert (Hpar : map (fun p => _get_agent_by_name c (fst p))
                   (filter (fun p => Qle_bool (confidence_threshold c) (snd p) = true)
                           (map label candidates))
                 = map Some qualifying)
    by (apply resolve_labels; assumption).
  assert (Hauto : process_task wall c task w
                  = process_task_auto wall c task (wall (env w)) w)
    by (by apply process_task_not_requested).
  destruct candidates as [|[best s] rest] eqn:Hcand; [done|].
  assert (Hbest : _get_agent_by_name c (name best) = Some best).
  { apply find_by_name_unique; [exact Hnd|]. apply (Hreg (best, s)). by left. }
  unfold process_task_auto, bind at 1 in Hauto. rewrite Hev in Hauto.
  cbn [map label fst snd] in Hauto. cbv zeta in Hauto.
  rewrite Hbest in Hauto.
  change (label (best, s) :: map label rest)
    with (map label ((best, s) :: rest)) in Hauto.
  rewrite (length_map label) in Hauto.
  rewrite Hpar, length_map in Hauto.
  split.
  - intros (Hen & Hc & Hq).
    apply Nat.ltb_lt in Hc, Hq. rewrite Hen, Hc, Hq in Hauto. simpl in Hauto.
    split; [exact Hauto|]. split.
    + unfold after. rewrite Hauto.
      rewrite (enrich_world (_execute_parallel c (map Some qualifying) task)
                 (fun results now => _combine_results results (map Some qualifying)
                                       (now - wall (env w)))).
      destruct (execute_parallel_trace c qualifying task w1) as (evs & Htr & Hex).
      by rewrite (events_since_app _ _ _ Htr).
    + intros rs e' Hserve. split.
      * rewrite Hauto. unfold bind.
        rewrite (all_serve_execute_parallel c _ _ _ _ _ Hserve). reflexivity.
      * intros out Hout.
        destruct (combine_results_aligned _ _ _ _ Hout) as (i & r & a & Hr & Ha & ->).
        exists i, r, a. split; [exact Hr|]. split.
        { rewrite list_lookup_fmap in Ha.
          destruct (qualifying !! i) as [x|]; [|discriminate]. simpl in Ha. congruence. }
        split; [apply prepare_result_agent_name|].
        intros k H1 H2 H3. by apply prepare_result_frame.
  - intros Hno. exists best, s, rest. split; [reflexivity|].
    assert (Hsingle : process_task wall c task w
              = (let* result := _execute_agent c (Some best) task in
                 let* now := time wall in
                 ret (_prepare_result result best (now - wall (env w)))) w1).
    { rewrite Hauto.
      destruct (enable_parallel c) eqn:Hen; [|reflexivity].
      destruct (1 <? length ((best, s) :: rest))%nat eqn:Hc; [|reflexivity].
      destruct (1 <? length qualifying)%nat eqn:Hq; [|reflexivity].
      exfalso. apply Hno. apply Nat.ltb_lt in Hc, Hq. auto. }
    split; [exact Hsingle|]. split.
    + unfold after. rewrite Hsingle.
      rewrite (enrich_world_ret (_execute_agent c (Some best) task)
                 (fun result now => _prepare_result result best (now - wall (env w)))).
      destruct (execute_agent_trace c best task w1) as (evs & Htr & Hex).
      by rewrite (events_since_app _ _ _ Htr).
    + intros e2 e3 r Hlog Hproc.
      exists (_prepare_result r best (wall e3 - wall (env w))).
      split; [|split; [apply prepare_result_agent_name|]].
      * rewrite Hsingle. unfold bind.
        rewrite (execute_agent_success _ _ _ _ _ _ _ Hlog Hproc). reflexivity.
      * intros k H1 H2 H3. by apply prepare_result_frame.
Qed.

(** ** An unresolvable preference *)

Lemma bind_cong {A B} (m m' : M A) (k k' : A -> M B) (w : World) :
  m w = m' w -> (forall a w1, k a w1 = k' a w1) -> bind m k w = bind m' k' w.
Proof.
  intros Hm Hk. unfold bind. rewrite Hm.
  destruct (m' w) as [[a|ex] w1]; [apply Hk|reflexivity].
Qed.

Section Preference.

Context (c : AgentCoordinator) (task : Task).
Hypothesis handlers_ignore :
  forall a, In a (agents c) \/ default_agent c = Some a -> ignores_preference a task.

Lemma call_eval_without (a : Agent) (w : World) :
  In a (agents c) ->
  call_eval task a w = call_eval (without_preference task) a w.
Proof.
  intros Ha. unfold call_eval, call.
  destruct (handlers_ignore a (or_introl Ha)) as [He _]. by rewrite He.
Qed.

Lemma gather_eval_without (ags : list Agent) (w : World) :
  (forall a, In a ags -> In a (agents c)) ->
  gather (map (call_eval task) ags) w
  = gather (map (call_eval (without_preference task)) ags) w.
Proof.
  revert w. induction ags as [|a ags IH]; intros w Hin; [reflexivity|].
  simpl. rewrite call_eval_without by (apply Hin; by left).
  destruct (call_eval (without_preference task) a w) as [o w1].
  rewrite IH by (intros x Hx; apply Hin; by right). reflexivity.
Qed.

Lemma evaluate_agents_without (w : World) :
  _evaluate_agents c task w = _evaluate_agents c (without_preference task) w.
Proof.
  unfold _evaluate_agents.
  assert (Hg : forall ags, ags = agents c ->
            gather (map (call_eval task) ags) w
            = gather (map (call_eval (without_preference task)) ags) w).
  { intros ags ->. apply gather_eval_without. auto. }
  destruct (agents c) as [|a ags] eqn:Hags; [reflexivity|].
  specialize (Hg (a :: ags) eq_refl).
  simpl in Hg |- *. unfold bind. by rewrite Hg.
Qed.

Lemma attempt_without (a : Agent) (msg : string) (w : World) :
  In a (agents c) \/ default_agent c = Some a ->
  (let* _ := call_log a msg in call_process a task) w
  = (let* _ := call_log a msg in call_process a (without_preference task)) w.
Proof.
  intros Ha. unfold bind, call_process, call.
  destruct (call_log a msg w) as [[[]|ex] w1]; [|reflexivity].
  destruct (handlers_ignore a Ha) as [_ Hp]. by rewrite Hp.
Qed.

Lemma execute_agent_without (oa : option Agent) (w : World) :
  (forall a, oa = Some a -> In a (agents c) \/ default_agent c = Some a) ->
  _execute_agent c oa task w = _execute_agent c oa (without_preference task) w.
Proof.
  intros Hoa. destruct oa as [a|]; [|reflexivity].
  rewrite !execute_agent_unfold. unfold primary_attempt, fallback_attempt.
  change (primary_msg (without_preference task)) with (primary_msg task).
  change (fallback_msg (without_preference task)) with (fallback_msg task).
  rewrite attempt_without by (by apply Hoa).
  match goal with |- context [bind ?m ?k w] => destruct (bind m k w) as [[r|ex] w1] end;
    [reflexivity|].
  pose proof (fun d Hd => attempt_without d (fallback_msg task) w1 (or_intror Hd)) as Hfb.
  destruct (same_agent (Some a) (default_agent c)); [reflexivity|].
  destruct (default_agent c) as [d|]; [|reflexivity].
  by apply Hfb.
Qed.

Lemma execute_parallel_without (ags : list (option Agent)) (w : World) :
  (forall a, In (Some a) ags -> In a (agents c)) ->
  _execute_parallel c ags task w = _execute_parallel c ags (without_preference task) w.
Proof.
  unfold _execute_parallel. revert w.
  induction ags as [|oa ags IH]; intros w Hin; [reflexivity|].
  simpl. rewrite execute_agent_without
    by (intros a ->; left; apply Hin; by left).
  destruct (_execute_agent c oa (without_preference task) w) as [o w1].
  rewrite IH by (intros x Hx; apply Hin; by right). reflexivity.
Qed.

Lemma process_task_auto_without (start : Q) (w : World) :
  process_task_auto wall c task start w
  = process_task_auto wall c (without_preference task) start w.
Proof.
  unfold process_task_auto.
  apply bind_cong; [apply evaluate_agents_without|]. intros ranked w1.
  assert (Hsingle : forall b (w2 : World),
            In b (agents c) \/ default_agent c = Some b ->
            (let* result := _execute_agent c (Some b) task in
             let* now := time wall in
             ret (_prepare_result result b (now - start))) w2
            = (let* result := _execute_agent c (Some b) (without_preference task) in
               let* now := time wall in
               ret (_prepare_result result b (now - start))) w2).
  { intros b w2 Hb. apply bind_cong; [|reflexivity].
    apply execute_agent_without. by intros ? [= <-]. }
  destruct ranked as [|[best_name best_score] rest].
  - destruct (default_agent c) as [d|] eqn:Hd; [|reflexivity].
    apply Hsingle. by right.
  - cbv zeta.
    assert (Hbest : (let* b := deref (_get_agent_by_name c best_name) in
                     let* result := _execute_agent c (Some b) task in
                     let* now := time wall in
                     ret (_prepare_result result b (now - start))) w1
                    = (let* b := deref (_get_agent_by_name c best_name) in
                       let* result := _execute_agent c (Some b) (without_preference task) in
                       let* now := time wall in
                       ret (_prepare_result result b (now - start))) w1).
    { destruct (_get_agent_by_name c best_name) as [b|] eqn:Hb; [|reflexivity].
      apply Hsingle. left. by destruct (find_by_name_Some _ _ _ Hb). }
    destruct (enable_parallel c && (1 <? length ((best_name, best_score) :: rest))%nat);
      [|exact Hbest].
    match goal with |- context [(1 <? length ?l)%nat] =>
      destruct (1 <? length l)%nat; [|exact Hbest]; set (pa := l) end.
    apply bind_cong; [|reflexivity].
    apply execute_parallel_without.
    intros a Ha. unfold pa in Ha. apply in_map_iff in Ha as (q & Hq & _).
    by destruct (find_by_name_Some _ _ _ Hq).
Qed.

End Preference.

(** C10 (as amended): when [preferred_agent] names no registered handler,
    [process_task] raises no error on that account and goes through
    suitability evaluation and ranking; provided the handlers themselves
    do not look at the [preferred_agent] field, the whole outcome (result
    or exception, calls made, final environment) is the one of the same
    task with the field omitted. *)
Theorem process_task_unresolved_preference (c : AgentCoordinator) (task : Task)
    (w : World) (nm : string) :
  preferred_agent task = Some nm ->
  _get_agent_by_name c nm = None ->
  (forall a, In a (agents c) \/ default_agent c = Some a -> ignores_preference a task) ->
  process_task wall c task w = process_task_auto wall c task (wall (env w)) w
  /\ process_task wall c task w = process_task wall c (without_preference task) w.
Proof.
  intros Hp Hget Hign.
  assert (Hreq : requested_agent c task = None).
  { unfold requested_agent. rewrite Hp, Hget. by destruct (truthy_str nm). }
  split; [by apply process_task_not_requested|].
  rewrite (process_task_not_requested _ _ _ Hreq).
  rewrite (process_task_not_requested c (without_preference task) w) by reflexivity.
  by apply process_task_auto_without.
Qed.

End Properties.

(** * The scenarios, evaluated *)

(** C1 (defect): a top-ranked handler that is not the default raises in
    [process].  The task is retried once on the default handler and the
    default handler's result is returned, but the returned mapping names
    the handler that failed, not the default handler that produced the
    result. *)
Theorem fallback_result_names_failed_agent :
  default_agent ex_fallback = Some ex_delta /\ name ex_delta = "Delta"
  /\ process_task clock ex_fallback (ask "hello" None) dawn
     = (Ok (_prepare_result (reply "from Delta" (1 # 2)) ex_alpha 6),
        {| env := 6%Q;
           trace := [EvSuitability 1; EvSuitability 2;
                     EvLog 1 "Processing task: hello..."; EvProcess 1;
                     EvLog 2 "Processing task as fallback: hello..."; EvProcess 2] |})
  /\ _prepare_result (reply "from Delta" (1 # 2)) ex_alpha 6 !! "agent_name"
     = Some (VStr "Alpha")
  /\ _prepare_result (reply "from Delta" (1 # 2)) ex_alpha 6 !! "answer"
     = Some (VStr "from Delta").
Proof. repeat split; vm_compute; reflexivity. Qed.

(** The ranking of scores 0.9, 0.9, 0.5 and 0: an instance of
    [evaluate_agents_ranking]. *)
Lemma evaluate_agents_ranking_witness :
  gather (map (call_eval ex_hello) (agents ex_tie)) dawn
  = (Ok ex_tie_scores, ex_tie_evaluated)
  /\ exists ranked : list (string * Q),
       _evaluate_agents ex_tie ex_hello dawn = (Ok ranked, ex_tie_evaluated)
       /\ Permutation ranked [("A", 9 # 10); ("B", 9 # 10); ("C", 1 # 2)]
       /\ StronglySorted (ge_key snd) ranked
       /\ (forall q : Q,
             filter (fun p => Qeq_bool (snd p) q = true) ranked
             = filter (fun p => Qeq_bool (snd p) q = true)
                      [("A", 9 # 10); ("B", 9 # 10); ("C", 1 # 2)])
       /\ Forall (fun p => (0 < snd p)%Q) ranked.
Proof.
  assert (H : gather (map (call_eval ex_hello) (agents ex_tie)) dawn
              = (Ok ex_tie_scores, ex_tie_evaluated)) by reflexivity.
  split; [exact H|].
  exact (evaluate_agents_ranking ex_tie ex_hello dawn ex_tie_evaluated ex_tie_scores H).
Defined.

(** Ranking determinism: with scores 0.9, 0.9 and 0.5 registered in the
    order A, B, C and no parallel execution, A is selected. *)
Example tie_selects_first_registered :
  fst (_evaluate_agents ex_tie ex_hello dawn)
  = Ok [("A", 9 # 10); ("B", 9 # 10); ("C", 1 # 2)]
  /\ process_task clock ex_tie ex_hello dawn
     = (Ok (_prepare_result (reply "from A" (6 # 10)) ex_A 6),
        {| env := 6%Q;
           trace := trace ex_tie_evaluated
                    ++ [EvLog 1 "Processing task: hello..."; EvProcess 1] |}).
Proof. split; vm_compute; reflexivity. Qed.

(** Two results with confidences 0.6 and 0.8, where the second wins: an
    instance of the selection rule. *)
Lemma combine_results_witness :
  [reply "from A" (6 # 10); reply "from B" (8 # 10)] <> []
  /\ length [ex_A; ex_B7] = length [reply "from A" (6 # 10); reply "from B" (8 # 10)]
  /\ Forall well_formed_confidence [reply "from A" (6 # 10); reply "from B" (8 # 10)]
  /\ exists (i : nat) (r : Result) (a : @Agent Q),
       [reply "from A" (6 # 10); reply "from B" (8 # 10)] !! i = Some r
       /\ [ex_A; ex_B7] !! i = Some a
       /\ (forall j r', [reply "from A" (6 # 10); reply "from B" (8 # 10)] !! j = Some r' ->
                        (confidence_of r' <= confidence_of r)%Q)
       /\ (forall j r', (j < i)%nat ->
                        [reply "from A" (6 # 10); reply "from B" (8 # 10)] !! j = Some r' ->
                        (confidence_of r' < confidence_of r)%Q)
       /\ _combine_results [reply "from A" (6 # 10); reply "from B" (8 # 10)]
                           (map Some [ex_A; ex_B7]) 7
          = Ok (_prepare_result r a 7)
       /\ (Forall (fun r' => r' !! "confidence" = None)
                  [reply "from A" (6 # 10); reply "from B" (8 # 10)] -> i = 0%nat)
       /\ (forall k, k <> "agent_name" -> k <> "agent_description" ->
                     k <> "execution_time" -> _prepare_result r a 7 !! k = r !! k).
Proof.
  assert (H1 : [reply "from A" (6 # 10); reply "from B" (8 # 10)] <> []) by discriminate.
  assert (H2 : length [ex_A; ex_B7]
               = length [reply "from A" (6 # 10); reply "from B" (8 # 10)]) by reflexivity.
  assert (H3 : Forall well_formed_confidence
                 [reply "from A" (6 # 10); reply "from B" (8 # 10)]).
  { repeat constructor; vm_compute; discriminate. }
  split; [exact H1|]. split; [exact H2|]. split; [exact H3|].
  exact (combine_results_selects_first_highest _ [ex_A; ex_B7] 7 H1 H2 H3).
Defined.

(** Parallel combination: with parallel execution, threshold 0.5 and
    scores 0.9, 0.7 and 0.3, exactly A and B are executed; A answers with
    confidence 0.6 and B with 0.8, and the answer is B's, named B. *)
Example fan_out_returns_most_confident :
  process_task clock ex_fan ex_hello dawn
  = (Ok (_prepare_result (reply "from B" (8 # 10)) ex_B7 7),
     {| env := 7%Q;
        trace := trace ex_fan_evaluated
                 ++ [EvLog 1 "Processing task: hello..."; EvProcess 1;
                     EvLog 2 "Processing task: hello..."; EvProcess 2] |})
  /\ _prepare_result (reply "from B" (8 # 10)) ex_B7 7 !! "agent_name" = Some (VStr "B").
Proof. split; vm_compute; reflexivity. Qed.

(** The fan-out scenario: an instance of [process_task_fan_out_decision]. *)
Lemma process_task_fan_out_witness :
  requested_agent ex_fan ex_hello = None
  /\ NoDup (map (fun a => lower (name a)) (agents ex_fan))
  /\ gather (map (call_eval ex_hello) (agents ex_fan)) dawn
     = (Ok ex_fan_scores, ex_fan_evaluated)
  /\ ranked_agents (agents ex_fan) ex_fan_scores <> []
  /\ (enable_parallel ex_fan = true
      /\ (1 < length (ranked_agents (agents ex_fan) ex_fan_scores))%nat
      /\ (1 < length [ex_A; ex_B7])%nat ->
      process_task clock ex_fan ex_hello dawn
      = bind (_execute_parallel ex_fan (map Some [ex_A; ex_B7]) ex_hello)
          (fun results =>
             bind (time clock)
               (fun now => lift (_combine_results results (map Some [ex_A; ex_B7])
                                   (now - clock (env dawn))))) ex_fan_evaluated
      /\ executed ex_hello
           (events_since (length (trace ex_fan_evaluated))
              (snd (process_task clock ex_fan ex_hello dawn)))
         = map aid [ex_A; ex_B7]
      /\ forall (rs : list Result) (e' : Q),
           all_serve ex_hello [ex_A; ex_B7] (env ex_fan_evaluated) rs e' ->
           process_task clock ex_fan ex_hello dawn
           = (_combine_results rs (map Some [ex_A; ex_B7]) (clock e' - clock (env dawn)),
              {| env := e';
                 trace := trace ex_fan_evaluated ++ served_events ex_hello [ex_A; ex_B7] |})
           /\ forall out : Result,
                _combine_results rs (map Some [ex_A; ex_B7]) (clock e' - clock (env dawn))
                = Ok out ->
                exists (i : nat) (r : Result) (a : @Agent Q),
                  rs !! i = Some r /\ [ex_A; ex_B7] !! i = Some a
                  /\ out !! "agent_name" = Some (VStr (name a))
                  /\ (forall k, k <> "agent_name" -> k <> "agent_description" ->
                                k <> "execution_time" -> out !! k = r !! k))
  /\ (~ (enable_parallel ex_fan = true
         /\ (1 < length (ranked_agents (agents ex_fan) ex_fan_scores))%nat
         /\ (1 < length [ex_A; ex_B7])%nat) ->
      exists (best : @Agent Q) (s : Q) (rest : list (@Agent Q * Q)),
        ranked_agents (agents ex_fan) ex_fan_scores = (best, s) :: rest
        /\ process_task clock ex_fan ex_hello dawn
           = bind (_execute_agent ex_fan (Some best) ex_hello)
               (fun result =>
                  bind (time clock)
                    (fun now => ret (_prepare_result result best
                                       (now - clock (env dawn))))) ex_fan_evaluated
        /\ executed ex_hello
             (events_since (length (trace ex_fan_evaluated))
                (snd (process_task clock ex_fan ex_hello dawn)))
           = [aid best]
        /\ forall (e2 e3 : Q) (r : Result),
             log_activity best (primary_msg ex_hello) (env ex_fan_evaluated) = (Ok tt, e2) ->
             process best ex_hello e2 = (Ok r, e3) ->
             exists out : Result,
               process_task clock ex_fan ex_hello dawn
               = (Ok out,
                  {| env := e3;
                     trace := trace ex_fan_evaluated
                              ++ [EvLog (aid best) (primary_msg ex_hello);
                                  EvProcess (aid best)] |})
               /\ out !! "agent_name" = Some (VStr (name best))
               /\ (forall k, k <> "agent_name" -> k <> "agent_description" ->
                             k <> "execution_time" -> out !! k = r !! k)).
Proof.
  assert (H1 : requested_agent ex_fan ex_hello = None) by reflexivity.
  assert (H2 : NoDup (map (fun a => lower (name a)) (agents ex_fan))).
  { apply (bool_decide_unpack _). vm_compute. exact I. }
  assert (H3 : gather (map (call_eval ex_hello) (agents ex_fan)) dawn
               = (Ok ex_fan_scores, ex_fan_evaluated)) by reflexivity.
  assert (H4 : ranked_agents (agents ex_fan) ex_fan_scores <> []) by discriminate.
  split; [exact H1|]. split; [exact H2|]. split; [exact H3|]. split; [exact H4|].
  exact (process_task_fan_out_decision clock ex_fan ex_hello dawn ex_fan_evaluated
           ex_fan_scores H1 H2 H3 H4).
Defined.

(** In the fan-out scenario both qualifying handlers answer: A with
    confidence 0.6, then B with confidence 0.8. *)
Example fan_out_all_serve :
  all_serve ex_hello [ex_A; ex_B7] (env ex_fan_evaluated)
    [reply "from A" (6 # 10); reply "from B" (8 # 10)] 7%Q.
Proof.
  eapply (serve_cons _ ex_A [ex_B7] 3%Q 3%Q 5%Q); [reflexivity|reflexivity|].
  eapply (serve_cons _ ex_B7 [] 5%Q 5%Q 7%Q); [reflexivity|reflexivity|].
  constructor.
Qed.

(** A request for handler "b" among A, B, C, Z: an instance of
    [process_task_preferred]. *)
Lemma process_task_preferred_witness :
  preferred_agent (ask "hello" (Some "b")) = Some "b" /\ "b" <> ""
  /\ _get_agent_by_name ex_tie "b" = Some ex_B
  /\ log_activity ex_B (primary_msg (ask "hello" (Some "b"))) (env dawn) = (Ok tt, 0%Q)
  /\ process ex_B (ask "hello" (Some "b")) 0%Q = (Ok (reply "from B" (8 # 10)), 2%Q)
  /\ In ex_B (agents ex_tie) /\ lower (name ex_B) = lower "b"
  /\ exists out : Result,
       process_task clock ex_tie (ask "hello" (Some "b")) dawn
       = (Ok out,
          {| env := 2%Q;
             trace := trace dawn
                      ++ [EvLog (aid ex_B) (primary_msg (ask "hello" (Some "b")));
                          EvProcess (aid ex_B)] |})
       /\ out !! "agent_name" = Some (VStr (name ex_B))
       /\ out !! "agent_description" = Some (VStr (description ex_B))
       /\ out !! "execution_time" = Some (VNum (clock 2 - clock (env dawn)))
       /\ (forall k, k <> "agent_name" -> k <> "agent_description" ->
                     k <> "execution_time" -> out !! k = reply "from B" (8 # 10) !! k).
Proof.
  assert (H1 : preferred_agent (ask "hello" (Some "b")) = Some "b") by reflexivity.
  assert (H2 : "b" <> "") by discriminate.
  assert (H3 : _get_agent_by_name ex_tie "b" = Some ex_B) by reflexivity.
  assert (H4 : log_activity ex_B (primary_msg (ask "hello" (Some "b"))) (env dawn)
               = (Ok tt, 0%Q)) by reflexivity.
  assert (H5 : process ex_B (ask "hello" (Some "b")) 0%Q
               = (Ok (reply "from B" (8 # 10)), 2%Q)) by reflexivity.
  split; [exact H1|]. split; [exact H2|]. split; [exact H3|].
  split; [exact H4|]. split; [exact H5|].
  exact (process_task_preferred clock ex_tie (ask "hello" (Some "b")) dawn "b" ex_B
           0%Q 2%Q (reply "from B" (8 # 10)) H1 H2 H3 H4 H5).
Defined.

(** Two handlers that decline: an instance of
    [process_task_no_candidates]. *)
Lemma process_task_no_candidates_witness :
  requested_agent ex_declined ex_hello = None
  /\ default_agent ex_declined = Some ex_coy
  /\ gather (map (call_eval ex_hello) (agents ex_declined)) dawn
     = (Ok ex_declined_scores, ex_declined_evaluated)
  /\ Forall (fun s => (s <= 0)%Q) ex_declined_scores
  /\ _evaluate_agents ex_declined ex_hello dawn = (Ok [], ex_declined_evaluated)
  /\ process_task clock ex_declined ex_hello dawn
     = bind (_execute_agent ex_declined (Some ex_coy) ex_hello)
         (fun result =>
            bind (time clock)
              (fun now => ret (_prepare_result result ex_coy (now - clock (env dawn)))))
         ex_declined_evaluated
  /\ forall (e2 e3 : Q) (r : Result),
       log_activity ex_coy (primary_msg ex_hello) (env ex_declined_evaluated) = (Ok tt, e2) ->
       process ex_coy ex_hello e2 = (Ok r, e3) ->
       process_task clock ex_declined ex_hello dawn
       = (Ok (_prepare_result r ex_coy (clock e3 - clock (env dawn))),
          {| env := e3;
             trace := trace ex_declined_evaluated
                      ++ [EvLog (aid ex_coy) (primary_msg ex_hello); EvProcess (aid ex_coy)] |})
       /\ _prepare_result r ex_coy (clock e3 - clock (env dawn)) !! "agent_name"
          = Some (VStr (name ex_coy)).
Proof.
  assert (H1 : requested_agent ex_declined ex_hello = None) by reflexivity.
  assert (H2 : default_agent ex_declined = Some ex_coy) by reflexivity.
  assert (H3 : gather (map (call_eval ex_hello) (agents ex_declined)) dawn
               = (Ok ex_declined_scores, ex_declined_evaluated)) by reflexivity.
  assert (H4 : Forall (fun s => (s <= 0)%Q) ex_declined_scores).
  { repeat constructor; vm_compute; discriminate. }
  split; [exact H1|]. split; [exact H2|]. split; [exact H3|]. split; [exact H4|].
  exact (process_task_no_candidates clock ex_declined ex_hello dawn ex_declined_evaluated
           ex_declined_scores ex_coy H1 H2 H3 H4).
Defined.

(** C6, counterexample: with a handler whose evaluator raises registered
    before a handler scoring 0.9, the evaluation pass raises and
    [process_task] raises with it, whereas treating the raising evaluator
    as score 0.0 would rank the other handler. *)
Lemma evaluator_failure_aborts_ranking :
  fst (_evaluate_agents ex_unguarded ex_hello dawn) = Raise (HandlerError "scoring failed")
  /\ fst (evaluate_agents_hardened ex_unguarded ex_hello dawn) = Ok [("Beta", 9 # 10)]
  /\ fst (_evaluate_agents ex_unguarded ex_hello dawn)
     <> fst (evaluate_agents_hardened ex_unguarded ex_hello dawn)
  /\ fst (process_task clock ex_unguarded ex_hello dawn)
     = Raise (HandlerError "scoring failed").
Proof. repeat split; try (vm_compute; reflexivity). vm_compute. discriminate. Qed.

(** The unguarded scenario: an instance of
    [process_task_evaluator_failure]. *)
Lemma process_task_evaluator_failure_witness :
  requested_agent ex_unguarded ex_hello = None
  /\ agents ex_unguarded = [] ++ ex_broken :: [ex_beta]
  /\ gather (map (call_eval ex_hello) []) dawn = (Ok [], dawn)
  /\ evaluate_suitability ex_broken ex_hello (env dawn)
     = (Raise (HandlerError "scoring failed"), 1%Q)
  /\ exists w' : @World Q,
       _evaluate_agents ex_unguarded ex_hello dawn = (Raise (HandlerError "scoring failed"), w')
       /\ process_task clock ex_unguarded ex_hello dawn
          = (Raise (HandlerError "scoring failed"), w')
       /\ trace w' = trace dawn ++ map (fun x => EvSuitability (aid x)) (agents ex_unguarded).
Proof.
  assert (H1 : requested_agent ex_unguarded ex_hello = None) by reflexivity.
  assert (H2 : agents ex_unguarded = [] ++ ex_broken :: [ex_beta]) by reflexivity.
  assert (H3 : gather (map (call_eval ex_hello) (@nil (@Agent Q))) dawn = (Ok [], dawn))
    by reflexivity.
  assert (H4 : evaluate_suitability ex_broken ex_hello (env dawn)
               = (Raise (HandlerError "scoring failed"), 1%Q)) by reflexivity.
  split; [exact H1|]. split; [exact H2|]. split; [exact H3|]. split; [exact H4|].
  exact (process_task_evaluator_failure clock ex_unguarded ex_hello dawn dawn
           [] [ex_beta] ex_broken [] (HandlerError "scoring failed") 1%Q H1 H2 H3 H4).
Defined.

(** The tie scenario returns A's result: an instance of
    [process_task_enrichment]. *)
Lemma process_task_enrichment_witness :
  process_task clock ex_tie ex_hello dawn
  = (Ok (_prepare_result (reply "from A" (6 # 10)) ex_A 6),
     {| env := 6%Q;
        trace := trace ex_tie_evaluated
                 ++ [EvLog 1 "Processing task: hello..."; EvProcess 1] |})
  /\ exists (r : Result) (a p : @Agent Q),
       (In a (agents ex_tie) \/ default_agent ex_tie = Some a)
       /\ ((requested_agent ex_tie ex_hello = Some a
            /\ served_by ex_tie ex_hello a (env dawn) p r 6%Q)
           \/ (requested_agent ex_tie ex_hello = None
               /\ exists (scores : list Q) (w1 : @World Q),
                    gather (map (call_eval ex_hello) (agents ex_tie)) dawn = (Ok scores, w1)
                    /\ (served_by ex_tie ex_hello a (env w1) p r 6%Q
                        \/ exists (ags : list (@Agent Q)) (prs : list (@Agent Q * Result))
                                  (i : nat),
                             fanned_out ex_tie ex_hello ags (env w1) prs 6%Q
                             /\ ags !! i = Some a /\ prs !! i = Some (p, r))))
       /\ _prepare_result (reply "from A" (6 # 10)) ex_A 6 !! "agent_name"
          = Some (VStr (name a))
       /\ _prepare_result (reply "from A" (6 # 10)) ex_A 6 !! "agent_description"
          = Some (VStr (description a))
       /\ _prepare_result (reply "from A" (6 # 10)) ex_A 6 !! "execution_time"
          = Some (VNum (clock 6 - clock (env dawn)))
       /\ (forall k, k <> "agent_name" -> k <> "agent_description" ->
                     k <> "execution_time" ->
                     _prepare_result (reply "from A" (6 # 10)) ex_A 6 !! k = r !! k).
Proof.
  assert (H : process_task clock ex_tie ex_hello dawn
              = (Ok (_prepare_result (reply "from A" (6 # 10)) ex_A 6),
                 {| env := 6%Q;
                    trace := trace ex_tie_evaluated
                             ++ [EvLog 1 "Processing task: hello..."; EvProcess 1] |})).
  { vm_compute. reflexivity. }
  split; [exact H|].
  exact (process_task_enrichment clock ex_tie ex_hello dawn _ _ H).
Defined.

(** C10, counterexample: a handler may read the [preferred_agent] field
    of the task it is handed; with an unregistered name in that field the
    returned result then differs from the one obtained with the field
    omitted. *)
Lemma unresolved_preference_is_visible_to_handlers :
  preferred_agent (ask "hello" (Some "ghost")) = Some "ghost"
  /\ _get_agent_by_name ex_echoing "ghost" = None
  /\ without_preference (ask "hello" (Some "ghost")) = ask "hello" None
  /\ fst (process_task clock ex_echoing (ask "hello" (Some "ghost")) dawn)
     = Ok (_prepare_result (reply "ghost" (1 # 2)) ex_echo 3)
  /\ fst (process_task clock ex_echoing (ask "hello" None) dawn)
     = Ok (_prepare_result (reply "nobody" (1 # 2)) ex_echo 3)
  /\ fst (process_task clock ex_echoing (ask "hello" (Some "ghost")) dawn)
     <> fst (process_task clock ex_echoing (ask "hello" None) dawn).
Proof.
  repeat split; try (vm_compute; reflexivity).
  intros H.
  apply (f_equal (fun o => match o with Ok m => m !! "answer" | Raise _ => None end)) in H.
  vm_compute in H. discriminate.
Qed.

(** A request for an unregistered handler among A, B, C, Z, none of which
    looks at the field: an instance of
    [process_task_unresolved_preference]. *)
Lemma process_task_unresolved_preference_witness :
  preferred_agent (ask "hello" (Some "ghost")) = Some "ghost"
  /\ _get_agent_by_name ex_tie "ghost" = None
  /\ (forall a, In a (agents ex_tie) \/ default_agent ex_tie = Some a ->
                ignores_preference a (ask "hello" (Some "ghost")))
  /\ process_task clock ex_tie (ask "hello" (Some "ghost")) dawn
     = process_task_auto clock ex_tie (ask "hello" (Some "ghost")) (clock (env dawn)) dawn
  /\ process_task clock ex_tie (ask "hello" (Some "ghost")) dawn
     = process_task clock ex_tie (without_preference (ask "hello" (Some "ghost"))) dawn.
Proof.
  assert (H1 : preferred_agent (ask "hello" (Some "ghost")) = Some "ghost") by reflexivity.
  assert (H2 : _get_agent_by_name ex_tie "ghost" = None) by reflexivity.
  assert (H3 : forall a, In a (agents ex_tie) \/ default_agent ex_tie = Some a ->
                         ignores_preference a (ask "hello" (Some "ghost"))).
  { intros a [[<-|[<-|[<-|[<-|[]]]]]|[= <-]]; split; reflexivity. }
  split; [exact H1|]. split; [exact H2|]. split; [exact H3|].
  exact (process_task_unresolved_preference clock ex_tie (ask "hello" (Some "ghost")) dawn
           "ghost" H1 H2 H3).
Defined.

(** C3 (defect): the combination step selects the result of highest
    confidence and discards the others, but it enriches the selected
    result with the agent standing at the same position of the fan-out
    list, which is not always the handler that produced it.  Here A, B
    and D score 0.9, 0.7 and 0.3 with threshold 0.5, so A and B are
    fanned out; A's [process] raises and the default handler D answers in
    its place with confidence 0.8, B answers with confidence 0.2.  The
    returned mapping is D's answer under A's name and description. *)
Theorem combined_fallback_result_names_failed_agent :
  default_agent ex_fan_fallback = Some ex_fd
  /\ process ex_fd ex_hello 5%Q = (Ok (reply "from D" (8 # 10)), 7%Q)
  /\ process_task clock ex_fan_fallback ex_hello dawn
     = (Ok (_prepare_result (reply "from D" (8 # 10)) ex_fa 9),
        {| env := 9%Q;
           trace := [EvSuitability 1; EvSuitability 2; EvSuitability 3;
                     EvLog 1 "Processing task: hello..."; EvProcess 1;
                     EvLog 3 "Processing task as fallback: hello..."; EvProcess 3;
                     EvLog 2 "Processing task: hello..."; EvProcess 2] |})
  /\ _combine_results [reply "from D" (8 # 10); reply "from B" (2 # 10)]
                      [Some ex_fa; Some ex_fb] 9
     = Ok (_prepare_result (reply "from D" (8 # 10)) ex_fa 9)
  /\ _prepare_result (reply "from D" (8 # 10)) ex_fa 9 !! "answer"
     = Some (VStr "from D")
  /\ _prepare_result (reply "from D" (8 # 10)) ex_fa 9 !! "agent_name"
     = Some (VStr "A")
  /\ _prepare_result (reply "from D" (8 # 10)) ex_fa 9 !! "agent_description"
     = Some (VStr "A handler")
  /\ name ex_fd = "D".
Proof. repeat split; vm_compute; reflexivity. Qed.
